(** * Comfyui_Presets_Util: prompt composition and workflow submission

    A shallow embedding of the two Python modules of the repository,
    [main.py] (the [DataManager] store and the prompt composer of
    [MainApp]) and [comfyui.py] ([ComfyUISettings], [api_system_stats],
    [send_workflow]), followed by the properties proved about them.

    Conventions of the embedding:
    - a Python [str] is a [string]: the sequence of its characters, every
      character taken with a code below 256;
    - a Python [dict] keyed by strings is a [gmap string _] (key order is
      not observed by any property below);
    - code that can raise runs in the monad [Py], which threads the
      observable effects (printed lines, message boxes, HTTP requests,
      file writes) and stops at the first exception;
    - the libraries ([requests], [random], [json], the file system) are
      not part of the repository: what they answer is read from a
      [world] record. *)

From Stdlib Require Import ZArith NArith Ascii String List Lia.
From stdpp Require Import gmap strings list fin_maps pretty.

Local Open Scope Z_scope.

(* ===================================================================== *)
(** ** Python string methods used by the program *)
(* ===================================================================== *)

Module PyStr.

(** The double quote and the backslash, by character code. *)
Definition dquote : ascii := "034"%char.
Definition backslash : ascii := "092"%char.

(** [s.startswith(p)]. *)
Fixpoint startswith (s p : string) : bool :=
  match p, s with
  | EmptyString, _ => true
  | String _ _, EmptyString => false
  | String a p', String b s' => if Ascii.eqb a b then startswith s' p' else false
  end.

(** [c in chars]. *)
Fixpoint contains_char (chars : string) (c : ascii) : bool :=
  match chars with
  | EmptyString => false
  | String a rest => if Ascii.eqb a c then true else contains_char rest c
  end.

(** Left-to-right scan of [str.replace]: [skip] counts the characters
    of a match that are still to be dropped. *)
Fixpoint replace_scan (old new : string) (skip : nat) (s : string) : string :=
  match s with
  | EmptyString => EmptyString
  | String c s' =>
      match skip with
      | S k => replace_scan old new k s'
      | O =>
          if startswith s old
          then new +:+ replace_scan old new (String.length old - 1) s'
          else String c (replace_scan old new O s')
      end
  end.

(** With an empty [old], Python inserts [new] before every character and
    at the end. *)
Fixpoint replace_empty (new s : string) : string :=
  match s with
  | EmptyString => new
  | String c s' => new +:+ String c (replace_empty new s')
  end.

(** [s.replace(old, new)]: every non-overlapping occurrence of [old],
    found from the left, becomes [new]. *)
Definition replace (s old new : string) : string :=
  match old with
  | EmptyString => replace_empty new s
  | String _ _ => replace_scan old new O s
  end.

(** [sep.join(parts)]. *)
Fixpoint join (sep : string) (parts : list string) : string :=
  match parts with
  | [] => EmptyString
  | p :: rest =>
      match rest with
      | [] => p
      | _ :: _ => p +:+ sep +:+ join sep rest
      end
  end.

Fixpoint lstrip (s chars : string) : string :=
  match s with
  | EmptyString => EmptyString
  | String c s' => if contains_char chars c then lstrip s' chars else s
  end.

Fixpoint rstrip (s chars : string) : string :=
  match s with
  | EmptyString => EmptyString
  | String c s' =>
      match rstrip s' chars with
      | EmptyString => if contains_char chars c then EmptyString else String c EmptyString
      | String _ _ as r => String c r
      end
  end.

(** [s.strip(chars)]. *)
Definition strip (s chars : string) : string := rstrip (lstrip s chars) chars.

(** [bool(s)] for a string: non-empty. *)
Definition nonempty (s : string) : bool :=
  match s with EmptyString => false | String _ _ => true end.

(** [filter(None, parts)] on a list of strings keeps the non-empty ones. *)
Definition filter_none (parts : list string) : list string :=
  List.filter nonempty parts.

(** [s[1:-1]]. *)
Definition slice_1_m1 (s : string) : string :=
  match s with
  | EmptyString => EmptyString
  | String _ s' => String.substring 0 (String.length s' - 1) s'
  end.

(** Number of occurrences of the character [c]. *)
Fixpoint count_char (c : ascii) (s : string) : nat :=
  match s with
  | EmptyString => O
  | String a s' => ((if Ascii.eqb a c then 1 else 0) + count_char c s')%nat
  end.

(** [sub in s] for a non-empty [sub]. *)
Fixpoint contains (s sub : string) : bool :=
  match s with
  | EmptyString => startswith EmptyString sub
  | String _ s' => if startswith s sub then true else contains s' sub
  end.

(** [s.endswith(p)]: some suffix of [s] is [p]. *)
Fixpoint endswith (s p : string) : bool :=
  if bool_decide (s = p) then true
  else match s with
       | EmptyString => false
       | String _ s' => endswith s' p
       end.

End PyStr.

(* ===================================================================== *)
(** ** Python values, exceptions and the effect monad *)
(* ===================================================================== *)

Module Py.

(** The scalar values a settings attribute or a JSON leaf can hold.  A
    float is carried by the text [str()] prints for it: the program
    only prints floats or compares them with [-1]. *)
Inductive scalar :=
| SNone
| SBool (b : bool)
| SInt (z : Z)
| SFloat (repr : string)
| SStr (s : string).

(** A parsed JSON document. *)
#[warnings="-register-all"] Inductive json :=
| JVal (v : scalar)
| JArr (items : list json)
| JObj (fields : gmap string json).

Definition JNull : json := JVal SNone.
Definition JStr (s : string) : json := JVal (SStr s).

(** [str(v)]. *)
Definition str (v : scalar) : string :=
  match v with
  | SNone => "None"
  | SBool true => "True"
  | SBool false => "False"
  | SInt z => pretty z
  | SFloat repr => repr
  | SStr s => s
  end.

(** [v == lit] for a string literal [lit]. *)
Definition eq_str (v : scalar) (lit : string) : bool :=
  match v with
  | SStr s => bool_decide (s = lit)
  | _ => false
  end.

(** [v == lit] for a small integer literal [lit]: an [int] with that
    value, the [bool] that counts as it, or the float that prints as
    [lit] followed by [.0]. *)
Definition eq_int (v : scalar) (lit : Z) : bool :=
  match v with
  | SInt z => bool_decide (z = lit)
  | SBool b => bool_decide ((if b then 1 else 0) = lit)
  | SFloat repr => bool_decide (repr = pretty lit +:+ ".0")
  | _ => false
  end.

(** [v == None]. *)
Definition eq_none (v : scalar) : bool :=
  match v with SNone => true | _ => false end.

(** [bool(v)]. *)
Definition truthy_scalar (v : scalar) : bool :=
  match v with
  | SNone => false
  | SBool b => b
  | SInt z => negb (bool_decide (z = 0))
  | SFloat repr => negb (bool_decide (repr = "0.0") || bool_decide (repr = "-0.0"))
  | SStr s => PyStr.nonempty s
  end.

Definition truthy (j : json) : bool :=
  match j with
  | JVal v => truthy_scalar v
  | JArr items => match items with [] => false | _ :: _ => true end
  | JObj fields => negb (bool_decide (fields = ∅))
  end.

(** [isinstance(j, str)]. *)
Definition is_str (j : json) : bool :=
  match j with JVal (SStr _) => true | _ => false end.

(** The exception classes the program can meet. *)
Inductive exn :=
| AttributeError (attr : string)
| TypeError (what : string)
| KeyError (key : string)
| IndexError
| FileNotFoundError (path : string)
| JSONDecodeError
| RequestException (detail : string)
| OtherException (class : string).

(** [isinstance(e, requests.RequestException)]. *)
Definition is_RequestException (e : exn) : bool :=
  match e with RequestException _ => true | _ => false end.

(** What a run leaves behind for an observer. *)
Inductive event :=
| Printed (line : string)
| HttpGet (url : string)
| HttpPost (url : string) (body : json)
| ShowError (topic : string)
| ShowWarning (topic : string)
| AutoClose (topic : string).

(** A JSON file on disk: its text either parses to a document or not. *)
Inductive jsonfile :=
| Unparseable
| Document (doc : json).

Record response := {
  status_code : Z;
  text : string;
  (** what [response.json()] gives: the parsed body, or the exception *)
  json_result : exn + json
}.

(** The answers of the libraries and of the environment. *)
Record world := {
  (** [open(path).read()] for the workflow templates *)
  templates : string → option string;
  (** the raw randomness behind the n-th call of [random.randint] *)
  entropy : nat → N;
  (** [json.loads]: [None] when the text is not JSON *)
  json_loads : string → option json;
  (** [requests.get(url)] *)
  http_get : string → exn + response;
  (** [requests.post(url, json=body)] *)
  http_post : string → json → exn + response
}.

Record state := {
  log : list event;
  draws : nat;
  disk : gmap string jsonfile
}.

Definition Py (A : Type) : Type := state → (exn + A) * state.

Definition ret {A} (a : A) : Py A := λ st, (inr a, st).

Definition bind {A B} (m : Py A) (k : A → Py B) : Py B :=
  λ st, match m st with
        | (inl e, st') => (inl e, st')
        | (inr a, st') => k a st'
        end.

Definition raise {A} (e : exn) : Py A := λ st, (inl e, st).

(** [try: body except <classes> as e: handler]. *)
Definition try_except {A} (body : Py A) (classes : exn → bool)
    (handler : exn → Py A) : Py A :=
  λ st, match body st with
        | (inl e, st') => if classes e then handler e st' else (inl e, st')
        | (inr a, st') => (inr a, st')
        end.

Definition emit (ev : event) : Py unit :=
  λ st, (inr tt, {| log := log st ++ [ev]; draws := draws st; disk := disk st |}).

Definition print (line : string) : Py unit := emit (Printed line).

(** [random.randint(a, b)]: an integer N with a <= N <= b. *)
Definition randint (w : world) (a b : Z) : Py Z :=
  λ st, (inr (a + Z.of_N (entropy w (draws st)) `mod` (b - a + 1)),
         {| log := log st; draws := S (draws st); disk := disk st |}).

Definition read_text (w : world) (path : string) : Py string :=
  match templates w path with
  | Some contents => ret contents
  | None => raise (FileNotFoundError path)
  end.

Definition requests_get (w : world) (url : string) : Py response :=
  bind (emit (HttpGet url))
       (λ _, match http_get w url with inl e => raise e | inr r => ret r end).

Definition requests_post (w : world) (url : string) (body : json) : Py response :=
  bind (emit (HttpPost url body))
       (λ _, match http_post w url body with inl e => raise e | inr r => ret r end).

Definition response_json (r : response) : Py json :=
  match json_result r with inl e => raise e | inr j => ret j end.

Definition loads (w : world) (s : string) : Py json :=
  match json_loads w s with
  | Some j => ret j
  | None => raise JSONDecodeError
  end.

(** [os.path.exists(path)]. *)
Definition path_exists (path : string) : Py bool :=
  λ st, (inr (bool_decide (is_Some (disk st !! path))), st).

(** [json.load(open(path))]. *)
Definition json_load (path : string) : Py json :=
  λ st, match disk st !! path with
        | Some (Document doc) => (inr doc, st)
        | Some Unparseable => (inl JSONDecodeError, st)
        | None => (inl (FileNotFoundError path), st)
        end.

(** [json.dump(doc, open(path, "w"))]; the directory of [path] is taken
    to exist. *)
Definition json_dump (doc : json) (path : string) : Py unit :=
  λ st, (inr tt, {| log := log st; draws := draws st;
                    disk := <[path := Document doc]> (disk st) |}).

(** One character of [json.dumps] with the default [ensure_ascii]. *)
Definition hex_digit (n : N) : ascii :=
  match n with
  | 0 => "0" | 1 => "1" | 2 => "2" | 3 => "3" | 4 => "4" | 5 => "5"
  | 6 => "6" | 7 => "7" | 8 => "8" | 9 => "9" | 10 => "a" | 11 => "b"
  | 12 => "c" | 13 => "d" | 14 => "e" | _ => "f"
  end%N%char.

Definition escape_char (c : ascii) : string :=
  let n := N_of_ascii c in
  let esc (x : ascii) := String PyStr.backslash (String x EmptyString) in
  if (n =? 34)%N then esc PyStr.dquote
  else if (n =? 92)%N then esc PyStr.backslash
  else if (n =? 10)%N then esc "n"%char
  else if (n =? 13)%N then esc "r"%char
  else if (n =? 9)%N then esc "t"%char
  else if (n =? 8)%N then esc "b"%char
  else if (n =? 12)%N then esc "f"%char
  else if (32 <=? n)%N && (n <=? 126)%N then String c EmptyString
  else String PyStr.backslash
         ("u00" +:+ String (hex_digit (n / 16)) (String (hex_digit (n mod 16)) EmptyString)).

Fixpoint escape (s : string) : string :=
  match s with
  | EmptyString => EmptyString
  | String c s' => escape_char c +:+ escape s'
  end.

(** [json.dumps(s)] for a string [s]. *)
Definition dumps_str (s : string) : string :=
  String PyStr.dquote (escape s +:+ String PyStr.dquote EmptyString).

End Py.

Notation "x <- m ; k" := (Py.bind m (λ x, k))
  (at level 20, m at level 100, k at level 200, only parsing).

(* ===================================================================== *)
(** ** comfyui.py *)
(* ===================================================================== *)

Module Comfyui.
Import Py.

Definition BASE_URL : string := "http://127.0.0.1:8000/".

(** The attributes [ComfyUISettings()] starts with.  [presets_name] and
    [prompt] hold display text that [send_workflow] never reads; they
    are left out. *)
Definition default_settings : gmap string scalar :=
  <["latent_width" := SInt 1216]>
  (<["latent_height" := SInt 832]>
  (<["batch_size" := SInt 1]>
  (<["seed" := SStr "RANDOM"]>
  (<["steps" := SInt 20]>
  (<["cfg" := SFloat "3.0"]>
  (<["checkpoint" := SStr "waiNSFWIllustrious_v120.safetensors"]>
  (<["lora" := SStr ""]> ∅))))))).

(** [ComfyUISettings(data)]: the attribute dictionary of the object. *)
Definition ComfyUISettings (data : option (gmap string scalar)) : gmap string scalar :=
  match data with
  | Some d => if bool_decide (d = ∅) then default_settings else d
  | None => default_settings
  end.

(** [obj.attr]. *)
Definition getattr (obj : gmap string scalar) (attr : string) : Py scalar :=
  match obj !! attr with
  | Some v => ret v
  | None => raise (AttributeError attr)
  end.

(** [s.replace(old, new)] where [new] is any object: a [TypeError]
    unless it is a [str]. *)
Definition str_replace (s old : string) (new : scalar) : Py string :=
  match new with
  | SStr n => ret (PyStr.replace s old n)
  | _ => raise (TypeError "replace() argument 2 must be str")
  end.

Definition api_system_stats (w : world) (URL : string) : Py json :=
  try_except
    (response <- requests_get w (URL +:+ "api/system_stats") ;
     if bool_decide (status_code response = 200)
     then response_json response
     else
       _ <- print ("Error: " +:+ pretty (status_code response) +:+ " - " +:+ text response) ;
       ret JNull)
    is_RequestException
    (λ _, ret JNull).

(** Lines 58-63: the template the workflow text is read from. *)
Definition template_path (lora : scalar) : string :=
  if eq_str lora "" || eq_none lora
  then "workflows/base.json"
  else "workflows/base-lora.json".

Definition read_template (w : world) (comfyui_settings : gmap string scalar) : Py string :=
  lora <- getattr comfyui_settings "lora" ;
  read_text w (template_path lora).

(** Lines 74-77: the text that takes the place of [%SEED%]. *)
Definition is_random_seed (seed : scalar) : bool :=
  eq_str seed "RANDOM" || eq_int seed (-1) || eq_str seed "-1".

Definition seed_text (w : world) (seed : scalar) : Py string :=
  if is_random_seed seed
  then r <- randint w 0 (2 ^ 31 - 1) ; ret (str (SInt r))
  else ret (str seed).

(** Lines 65-79: the substitutions, in the order of the source. *)
Definition substitute (w : world) (comfyui_settings : gmap string scalar)
    (prompt workflow_str : string) : Py string :=
  checkpoint <- getattr comfyui_settings "checkpoint" ;
  workflow_str <- str_replace workflow_str "%CHECKPOINT%" checkpoint ;
  lora <- getattr comfyui_settings "lora" ;
  workflow_str <- str_replace workflow_str "%LORA%" lora ;
  let workflow_str :=
    PyStr.replace workflow_str "%PROMPT%" (PyStr.slice_1_m1 (dumps_str prompt)) in
  latent_width <- getattr comfyui_settings "latent_width" ;
  let workflow_str := PyStr.replace workflow_str "%WIDTH%" (str latent_width) in
  latent_height <- getattr comfyui_settings "latent_height" ;
  let workflow_str := PyStr.replace workflow_str "%HEIGHT%" (str latent_height) in
  batch_size <- getattr comfyui_settings "batch_size" ;
  let workflow_str := PyStr.replace workflow_str "%BATCH_SIZE%" (str batch_size) in
  seed <- getattr comfyui_settings "seed" ;
  seed_str <- seed_text w seed ;
  let workflow_str := PyStr.replace workflow_str "%SEED%" seed_str in
  steps <- getattr comfyui_settings "steps" ;
  let workflow_str := PyStr.replace workflow_str "%STEPS%" (str steps) in
  cfg <- getattr comfyui_settings "cfg" ;
  let workflow_str := PyStr.replace workflow_str "%CFG%" (str cfg) in
  ret workflow_str.

(** Lines 58-79: the text handed to [json.loads]. *)
Definition workflow_text (w : world) (comfyui_settings : gmap string scalar)
    (prompt : string) : Py string :=
  workflow_str <- read_template w comfyui_settings ;
  substitute w comfyui_settings prompt workflow_str.

Definition send_workflow (w : world) (BASE_URL : string)
    (comfyui_settings : gmap string scalar) (prompt : string) : Py unit :=
  workflow_str <- workflow_text w comfyui_settings prompt ;
  workflow_json <- loads w workflow_str ;
  response <- requests_post w (BASE_URL +:+ "prompt")
                (JObj (<["prompt" := workflow_json]> ∅)) ;
  if bool_decide (status_code response = 200)
  then print "Workflow sent successfully!"
  else print ("Error: " +:+ pretty (status_code response) +:+ " - " +:+ text response).

End Comfyui.

(* ===================================================================== *)
(** ** main.py: DataManager *)
(* ===================================================================== *)

Module DataManager.
Import Py.

Definition GENERATED_PROMPTS_FILE : string := "./prompts/generated_prompts.json".
Definition PROMPT_PRESETS_FILE : string := "./prompts/prompt_presets.json".

Definition default_categories : list string :=
  ["quality"; "style"; "character"; "pose"; "extra"].

(** [cat in loaded_data]. *)
Definition contains_key (loaded_data : json) (cat : string) : exn + bool :=
  match loaded_data with
  | JObj fields => inr (bool_decide (is_Some (fields !! cat)))
  | JArr items => inr (existsb (λ x, eq_str (match x with JVal v => v | _ => SNone end) cat) items)
  | JVal (SStr s) => inr (PyStr.contains s cat)
  | JVal _ => inl (TypeError "argument is not iterable")
  end.

(** [loaded_data[cat]] for a string [cat]. *)
Definition getitem (loaded_data : json) (cat : string) : exn + json :=
  match loaded_data with
  | JObj fields =>
      match fields !! cat with
      | Some v => inr v
      | None => inl (KeyError cat)
      end
  | _ => inl (TypeError "indices must be integers")
  end.

(** [v[0]]. *)
Definition first_item (v : json) : exn + json :=
  match v with
  | JArr (x :: _) => inr x
  | JArr [] => inl IndexError
  | JVal (SStr (String c _)) => inr (JStr (String c EmptyString))
  | JVal (SStr EmptyString) => inl IndexError
  | JObj _ => inl (KeyError "0")
  | JVal _ => inl (TypeError "object is not subscriptable")
  end.

(** The items [for v in loaded_data[cat]] runs over, for the two kinds of
    value whose first item can be a [str]: a list, and a [str] (whose
    items are its characters). *)
Definition items_of (v : json) : list json :=
  match v with
  | JArr items => items
  | JVal (SStr s) => (λ c, JStr (String c EmptyString)) <$> list_ascii_of_string s
  | _ => []
  end.

(** [{"name": v, "value": v}]. *)
Definition name_value (v : json) : json :=
  JObj (<["value" := v]> (<["name" := v]> ∅)).

(** [loaded_data[cat] and isinstance(loaded_data[cat][0], str)]. *)
Definition is_legacy (v : json) : exn + bool :=
  if truthy v
  then match first_item v with
       | inl e => inl e
       | inr x => inr (is_str x)
       end
  else inr false.

(** One turn of the loop over [default_categories]. *)
Definition load_category (loaded_data : json) (data : gmap string json)
    (cat : string) : exn + gmap string json :=
  match contains_key loaded_data cat with
  | inl e => inl e
  | inr false => inr data
  | inr true =>
      match getitem loaded_data cat with
      | inl e => inl e
      | inr v =>
          match is_legacy v with
          | inl e => inl e
          | inr true => inr (<[cat := JArr (name_value <$> items_of v)]> data)
          | inr false => inr (<[cat := v]> data)
          end
      end
  end.

(** The loop: [data] as it stands when the loop ends or is left by an
    exception. *)
Fixpoint load_categories (loaded_data : json) (cats : list string)
    (data : gmap string json) : gmap string json * option exn :=
  match cats with
  | [] => (data, None)
  | cat :: rest =>
      match load_category loaded_data data cat with
      | inl e => (data, Some e)
      | inr data' => load_categories loaded_data rest data'
      end
  end.

(** [except (json.JSONDecodeError, IndexError)]. *)
Definition caught_on_load (e : exn) : bool :=
  match e with
  | JSONDecodeError | IndexError => true
  | _ => false
  end.

Definition empty_presets : gmap string json :=
  list_to_map ((λ cat, (cat, JArr [])) <$> default_categories).

Definition load_prompt_presets : Py (gmap string json) :=
  let data := empty_presets in
  let on_error (e : exn) (data : gmap string json) : Py (gmap string json) :=
    if caught_on_load e
    then _ <- emit (ShowError "prompt_presets.json") ; ret data
    else raise e in
  present <- path_exists PROMPT_PRESETS_FILE ;
  if present
  then λ st,
    match json_load PROMPT_PRESETS_FILE st with
    | (inl e, st') => on_error e data st'
    | (inr loaded_data, st') =>
        match load_categories loaded_data default_categories data with
        | (data', None) => ret data' st'
        | (data', Some e) => on_error e data' st'
        end
    end
  else ret data.

Definition save_prompt_presets (data : gmap string json) : Py unit :=
  json_dump (JObj data) PROMPT_PRESETS_FILE.


Definition save_generated_prompts (data : gmap string string) : Py unit :=
  json_dump (JObj (JStr <$> data)) GENERATED_PROMPTS_FILE.

End DataManager.

(* ===================================================================== *)
(** ** main.py: the prompt composer of MainApp *)
(* ===================================================================== *)

Module MainApp.
Import Py.

(** The category names.  [prompt_vars] and [prompt_presets] are
    dictionaries built once over these fixed names, so they are total
    functions of the category here. *)
Inductive category := quality | style | character | pose | extra.

#[global] Instance category_eq_dec : EqDecision category.
Proof. solve_decision. Defined.

Definition category_name (cat : category) : string :=
  match cat with
  | quality => "quality"
  | style => "style"
  | character => "character"
  | pose => "pose"
  | extra => "extra"
  end.

Definition PROMPT_CATEGORIES : list category := [quality; style; character; pose].
Definition EXTRA_CATEGORY : category := extra.
Definition ALL_CATEGORIES : list category := PROMPT_CATEGORIES ++ [EXTRA_CATEGORY].
Definition PROMPT_VALUE_ORDER : list category := [quality; style; character; pose; extra].
Definition PROMPT_KEY_ORDER : list category := [character; pose; style; extra; quality].

(** A preset [{"name": ..., "value": ...}]. *)
Record PromptFragment := { name : string; value : string }.

(** What [comfyui_status_var] shows: the first text, or one of the three
    texts [check_comfyui_connection] writes (the last two begin with the
    cross mark). *)
Inductive connection_status :=
| NotChecked
| Connected
| EmptyUrl
| Unreachable.

Record app := {
  generated_prompts : gmap string string;
  prompt_presets : category → list PromptFragment;
  comfyui_settings : gmap string scalar;
  (** the text of the [StringVar] of each single-select category *)
  prompt_vars : category → string;
  comfyui_url_var : string;
  comfyui_status_var : connection_status;
  (** the rows of [extra_listbox] and the indices [curselection()] gives *)
  extra_listbox : list string;
  extra_curselection : list nat
}.

(** [self.extra_listbox.get(i)]: the row at index [i] (Tk answers the
    empty string outside the rows). *)
Definition extra_get (self : app) (i : nat) : string :=
  default EmptyString (extra_listbox self !! i).

(** [next((p["value"] for p in presets if p["name"] == name), None)]. *)
Definition lookup_value (presets : list PromptFragment) (selected : string)
    : option string :=
  value <$> List.find (λ p, bool_decide (name p = selected)) presets.

(** [if value: prompt_parts.append(value.strip(","))]. *)
Definition append_value (found : option string) : list string :=
  match found with
  | Some v => if PyStr.nonempty v then [PyStr.strip v ","] else []
  | None => []
  end.

(** What one category appends to [prompt_parts]. *)
Definition value_parts_of (self : app) (cat : category) : list string :=
  if decide (cat = EXTRA_CATEGORY)
  then flat_map (λ i, append_value (lookup_value (prompt_presets self cat) (extra_get self i)))
                (extra_curselection self)
  else
    let selected_name := prompt_vars self cat in
    if PyStr.nonempty selected_name
    then append_value (lookup_value (prompt_presets self cat) selected_name)
    else [].

Definition prompt_parts (self : app) : list string :=
  flat_map (value_parts_of self) PROMPT_VALUE_ORDER.

Definition full_prompt (self : app) : string :=
  PyStr.join ", " (PyStr.filter_none (prompt_parts self)).

(** What one category appends to [key_parts]. *)
Definition key_parts_of (self : app) (cat : category) : list string :=
  if decide (cat = EXTRA_CATEGORY)
  then match extra_curselection self with
       | [] => []
       | _ :: _ => [PyStr.join "_" (extra_get self <$> extra_curselection self)]
       end
  else [prompt_vars self cat].

Definition key_parts (self : app) : list string :=
  flat_map (key_parts_of self) PROMPT_KEY_ORDER.

Definition final_key (self : app) : string :=
  PyStr.join "-" (PyStr.filter_none (key_parts self)).

Definition set_generated_prompts (self : app) (g : gmap string string) : app :=
  {| generated_prompts := g;
     prompt_presets := prompt_presets self;
     comfyui_settings := comfyui_settings self;
     prompt_vars := prompt_vars self;
     comfyui_url_var := comfyui_url_var self;
     comfyui_status_var := comfyui_status_var self;
     extra_listbox := extra_listbox self;
     extra_curselection := extra_curselection self |}.

Definition set_comfyui_status_var (self : app) (status : connection_status) : app :=
  {| generated_prompts := generated_prompts self;
     prompt_presets := prompt_presets self;
     comfyui_settings := comfyui_settings self;
     prompt_vars := prompt_vars self;
     comfyui_url_var := comfyui_url_var self;
     comfyui_status_var := status;
     extra_listbox := extra_listbox self;
     extra_curselection := extra_curselection self |}.

(** [generate_prompt_string]: the application after the handler has run.
    The refresh of the list of generated prompts is display only. *)
Definition generate_prompt_string (self : app) : Py app :=
  let full_prompt := full_prompt self in
  let final_key := final_key self in
  if negb (PyStr.nonempty final_key)
  then _ <- emit (ShowWarning "select at least one prompt preset") ; ret self
  else
    let self := set_generated_prompts self (<[final_key := full_prompt]> (generated_prompts self)) in
    _ <- DataManager.save_generated_prompts (generated_prompts self) ;
    _ <- emit (AutoClose ("generated " +:+ final_key)) ;
    ret self.

(** The loop of [send_selected_prompt] over the selected keys. *)
Fixpoint send_each (w : world) (self : app) (keys : list string) (count : nat) : Py nat :=
  match keys with
  | [] => ret count
  | key :: rest =>
      let prompt_text := default EmptyString (generated_prompts self !! key) in
      if PyStr.nonempty prompt_text
      then
        _ <- Comfyui.send_workflow w (comfyui_url_var self) (comfyui_settings self) prompt_text ;
        send_each w self rest (S count)
      else send_each w self rest count
  end.

(** [send_selected_prompt]; [keys] are the rows selected in the list of
    generated prompts. *)
Definition send_selected_prompt (w : world) (self : app) (keys : list string) : Py app :=
  match comfyui_status_var self with
  | EmptyUrl | Unreachable =>
      _ <- emit (ShowError "connect to ComfyUI first") ; ret self
  | NotChecked | Connected =>
      match keys with
      | [] => _ <- emit (AutoClose "select a prompt to send") ; ret self
      | _ :: _ =>
          count <- send_each w self keys 0 ;
          _ <- emit (AutoClose ("sent " +:+ pretty (N.of_nat count))) ;
          ret self
      end
  end.

(** The characters [str.strip()] removes, among those below 256. *)
Definition whitespace : string :=
  string_of_list_ascii
    (ascii_of_nat <$> [9; 10; 11; 12; 13; 28; 29; 30; 31; 32; 133; 160]%nat).

Definition check_comfyui_connection (w : world) (self : app) : Py app :=
  let url := PyStr.strip (comfyui_url_var self) whitespace in
  if negb (PyStr.nonempty url)
  then ret (set_comfyui_status_var self EmptyUrl)
  else
    stats <- Comfyui.api_system_stats w url ;
    if truthy stats
    then ret (set_comfyui_status_var self Connected)
    else ret (set_comfyui_status_var self Unreachable).

(** *** The preset editing handlers

    The two entry fields of a category are not part of [app]: the texts
    a handler reads from them are its arguments [name_entry] and
    [val_entry], and the answer to a confirmation dialog is the
    argument [confirmed]. *)

Definition set_prompt_presets (self : app) (category : category)
    (presets : list PromptFragment) : app :=
  {| generated_prompts := generated_prompts self;
     prompt_presets := λ c, if decide (c = category) then presets else prompt_presets self c;
     comfyui_settings := comfyui_settings self;
     prompt_vars := prompt_vars self;
     comfyui_url_var := comfyui_url_var self;
     comfyui_status_var := comfyui_status_var self;
     extra_listbox := extra_listbox self;
     extra_curselection := extra_curselection self |}.

Definition set_prompt_var (self : app) (category : category) (selected : string) : app :=
  {| generated_prompts := generated_prompts self;
     prompt_presets := prompt_presets self;
     comfyui_settings := comfyui_settings self;
     prompt_vars := λ c, if decide (c = category) then selected else prompt_vars self c;
     comfyui_url_var := comfyui_url_var self;
     comfyui_status_var := comfyui_status_var self;
     extra_listbox := extra_listbox self;
     extra_curselection := extra_curselection self |}.

(** The listbox emptied and filled with [rows]: no row is selected. *)
Definition set_extra_listbox (self : app) (rows : list string) : app :=
  {| generated_prompts := generated_prompts self;
     prompt_presets := prompt_presets self;
     comfyui_settings := comfyui_settings self;
     prompt_vars := prompt_vars self;
     comfyui_url_var := comfyui_url_var self;
     comfyui_status_var := comfyui_status_var self;
     extra_listbox := rows;
     extra_curselection := [] |}.

(** [{"name": ..., "value": ...}] as [json.dump] writes a preset. *)
Definition fragment_json (p : PromptFragment) : json :=
  JObj (<["value" := JStr (value p)]> (<["name" := JStr (name p)]> ∅)).

(** [self.prompt_presets] as the dictionary handed to
    [DataManager.save_prompt_presets]. *)
Definition presets_json (presets : category → list PromptFragment) : gmap string json :=
  list_to_map ((λ cat, (category_name cat, JArr (fragment_json <$> presets cat)))
                 <$> ALL_CATEGORIES).

(** What [_get_selected_preset_name] returns: a string for a
    single-select category, a list of strings for the multi-select
    one. *)
Inductive selection :=
| OneName (selected : string)
| ManyNames (selected : list string).

Definition _get_selected_preset_name (self : app) (category : category) : selection :=
  if decide (category = EXTRA_CATEGORY)
  then match extra_curselection self with
       | [] => ManyNames []
       | _ :: _ => ManyNames (extra_get self <$> extra_curselection self)
       end
  else OneName (prompt_vars self category).

(** [bool(selected_names)]. *)
Definition selection_truthy (selected_names : selection) : bool :=
  match selected_names with
  | OneName s => PyStr.nonempty s
  | ManyNames l => match l with [] => false | _ :: _ => true end
  end.

(** [x in selected_names]: a substring test on a string, a membership
    test on a list. *)
Definition selection_contains (selected_names : selection) (x : string) : bool :=
  match selected_names with
  | OneName s => PyStr.contains s x
  | ManyNames l => bool_decide (x ∈ l)
  end.

(** [selected_names if category != EXTRA_CATEGORY else selected_names[0]],
    for a selection that is not empty. *)
Definition first_selected (selected_names : selection) : string :=
  match selected_names with
  | OneName s => s
  | ManyNames l => default EmptyString (head l)
  end.

Definition refresh_prompt_ui (self : app) (category : category)
    (new_selection : option string) : app :=
  if decide (category = EXTRA_CATEGORY)
  then set_extra_listbox self (name <$> prompt_presets self category)
  else
    let names := name <$> prompt_presets self category in
    let first := default EmptyString (head names) in
    set_prompt_var self category
      match new_selection with
      | Some n => if PyStr.nonempty n && bool_decide (n ∈ names) then n else first
      | None => first
      end.

Definition add_prompt (self : app) (category : category)
    (name_entry val_entry : string) : Py app :=
  let new_name := PyStr.strip name_entry whitespace in
  let new_value := PyStr.strip val_entry whitespace in
  if negb (PyStr.nonempty new_name) || negb (PyStr.nonempty new_value)
  then _ <- emit (ShowWarning "name and value must not be empty") ; ret self
  else if existsb (λ p, bool_decide (name p = new_name)) (prompt_presets self category)
  then _ <- emit (ShowWarning "a preset of this name exists") ; ret self
  else
    let self := set_prompt_presets self category
                  (prompt_presets self category
                   ++ [{| name := new_name; value := new_value |}]) in
    _ <- DataManager.save_prompt_presets (presets_json (prompt_presets self)) ;
    let self := refresh_prompt_ui self category None in
    _ <- emit (AutoClose ("added " +:+ new_name)) ;
    ret self.

(** The loop of [edit_prompt]: the first preset named [selected_name]
    is replaced; [None] when the loop ends without a match. *)
Fixpoint replace_first (selected_name : string) (new : PromptFragment)
    (presets : list PromptFragment) : option (list PromptFragment) :=
  match presets with
  | [] => None
  | preset :: rest =>
      if bool_decide (name preset = selected_name)
      then Some (new :: rest)
      else (λ rest', preset :: rest') <$> replace_first selected_name new rest
  end.

Definition edit_prompt (self : app) (category : category)
    (name_entry val_entry : string) : Py app :=
  let selected_names := _get_selected_preset_name self category in
  if negb (selection_truthy selected_names)
  then _ <- emit (ShowWarning "select a preset to edit") ; ret self
  else
    let selected_name := first_selected selected_names in
    let new_name := PyStr.strip name_entry whitespace in
    let new_value := PyStr.strip val_entry whitespace in
    if negb (PyStr.nonempty new_name) || negb (PyStr.nonempty new_value)
    then _ <- emit (ShowWarning "name and value must not be empty") ; ret self
    else if negb (bool_decide (new_name = selected_name))
            && existsb (λ p, bool_decide (name p = new_name)) (prompt_presets self category)
    then _ <- emit (ShowWarning "the new name is taken by another preset") ; ret self
    else
      match replace_first selected_name {| name := new_name; value := new_value |}
              (prompt_presets self category) with
      | Some presets =>
          let self := set_prompt_presets self category presets in
          _ <- DataManager.save_prompt_presets (presets_json (prompt_presets self)) ;
          let self := refresh_prompt_ui self category (Some new_name) in
          _ <- emit (AutoClose ("edited " +:+ new_name)) ;
          ret self
      | None => ret self
      end.

Definition delete_prompt (self : app) (category : category) (confirmed : bool) : Py app :=
  let selected_names := _get_selected_preset_name self category in
  if negb (selection_truthy selected_names)
  then _ <- emit (ShowWarning "select a preset to delete") ; ret self
  else if negb confirmed
  then ret self
  else
    let initial_count := length (prompt_presets self category) in
    let self := set_prompt_presets self category
                  (List.filter (λ p, negb (selection_contains selected_names (name p)))
                     (prompt_presets self category)) in
    if (length (prompt_presets self category) <? initial_count)%nat
    then
      _ <- DataManager.save_prompt_presets (presets_json (prompt_presets self)) ;
      let self := refresh_prompt_ui self category None in
      _ <- emit (AutoClose "the selected presets were deleted") ;
      ret self
    else ret self.


End MainApp.

(* ===================================================================== *)
(** ** The composer as the specification words it *)
(* ===================================================================== *)

Module ComposerSpec.
Import MainApp.

(** What a category stands for in the key: the selected name, and for
    the multi-select category the selected names joined by an
    underscore. *)
Definition key_contribution (self : app) (cat : category) : string :=
  if decide (cat = EXTRA_CATEGORY)
  then PyStr.join "_" (extra_get self <$> extra_curselection self)
  else prompt_vars self cat.

(** The categories that have a selection, in key order. *)
Definition selected_categories (self : app) : list category :=
  List.filter (λ cat, PyStr.nonempty (key_contribution self cat)) PROMPT_KEY_ORDER.

(** The same application with the selection of [cat] emptied. *)
Definition clear_selection (self : app) (cat : category) : app :=
  {| generated_prompts := generated_prompts self;
     prompt_presets := prompt_presets self;
     comfyui_settings := comfyui_settings self;
     prompt_vars := λ c, if decide (c = cat) then EmptyString else prompt_vars self c;
     comfyui_url_var := comfyui_url_var self;
     comfyui_status_var := comfyui_status_var self;
     extra_listbox := extra_listbox self;
     extra_curselection := extra_curselection self |}.

(** The run state after the warning of [generate_prompt_string]:
    one message box more, the disk as it was. *)
Definition warned (st : Py.state) : Py.state :=
  {| Py.log := Py.log st ++ [Py.ShowWarning "select at least one prompt preset"];
     Py.draws := Py.draws st;
     Py.disk := Py.disk st |}.

End ComposerSpec.

(* ===================================================================== *)
(** ** The fragment document as the specification words it *)
(* ===================================================================== *)

Module StoreSpec.
Import Py DataManager.




(** What the loader makes of the value of one category. *)
Definition normalised (v : json) : json :=
  match is_legacy v with
  | inr true => JArr (name_value <$> items_of v)
  | _ => v
  end.

End StoreSpec.

(* ===================================================================== *)
(** ** The submitter as the specification words it *)
(* ===================================================================== *)

Module SubmitterSpec.
Import Py Comfyui.

(** The substitutions made before the seed is resolved (lines 65-72). *)
Definition substituted_before_seed (checkpoint lora prompt : string)
    (latent_width latent_height batch_size : scalar) (template : string) : string :=
  PyStr.replace
    (PyStr.replace
      (PyStr.replace
        (PyStr.replace
          (PyStr.replace
            (PyStr.replace template "%CHECKPOINT%" checkpoint)
            "%LORA%" lora)
          "%PROMPT%" (escape prompt))
        "%WIDTH%" (str latent_width))
      "%HEIGHT%" (str latent_height))
    "%BATCH_SIZE%" (str batch_size).

(** The substitutions made from the seed on (lines 74-79). *)
Definition substituted_from_seed (seed_str : string) (steps cfg : scalar)
    (text : string) : string :=
  PyStr.replace
    (PyStr.replace
      (PyStr.replace text "%SEED%" seed_str)
      "%STEPS%" (str steps))
    "%CFG%" (str cfg).

(** The state after one call of [random.randint]. *)
Definition drawn (st : state) : state :=
  {| log := log st; draws := S (draws st); disk := disk st |}.

(** The state after a request has been recorded. *)
Definition logged (ev : event) (st : state) : state :=
  {| log := log st ++ [ev]; draws := draws st; disk := disk st |}.

(** The connectivity probe: the truth value of what [api_system_stats]
    returns, as [check_comfyui_connection] tests it. *)
Definition probe (w : world) (URL : string) : Py bool :=
  stats <- api_system_stats w URL ;
  ret (truthy stats).

End SubmitterSpec.

(* ===================================================================== *)
(** ** Invariants of the stores *)
(* ===================================================================== *)

Module Invariants.
Import Py DataManager MainApp.

(** What every mapping returned by [load_prompt_presets] satisfies: its
    keys are the five categories, and no value would be upgraded again
    by the legacy test. *)
Definition settled (data : gmap string json) : Prop :=
  (∀ k, is_Some (data !! k) ↔ k ∈ default_categories)
  ∧ ∀ k v, data !! k = Some v → is_legacy v = inr false.



(** The preset names of a category are pairwise different. *)
Definition names_unique (self : app) (cat : category) : Prop :=
  NoDup (name <$> prompt_presets self cat).

End Invariants.

(* ===================================================================== *)
(** ** Sample inputs *)
(* ===================================================================== *)

Module Samples.
Import Py MainApp.

Definition fresh : state := {| log := []; draws := 0; disk := ∅ |}.

(** Two presets selected, a stale name left in a third category, and
    two rows of the multi-select list selected. *)
Definition studio : app :=
  {| generated_prompts := ∅;
     prompt_presets := λ cat,
       match cat with
       | quality => [{| name := "q1"; value := "masterpiece" |}]
       | style => [{| name := "anime"; value := "anime style," |}]
       | extra => [{| name := "e1"; value := "x" |}; {| name := "e2"; value := ",y," |}]
       | _ => []
       end;
     comfyui_settings := Comfyui.default_settings;
     prompt_vars := λ cat,
       match cat with
       | quality => "q1"
       | style => "anime"
       | character => "gone"
       | _ => EmptyString
       end;
     comfyui_url_var := Comfyui.BASE_URL;
     comfyui_status_var := NotChecked;
     extra_listbox := ["e1"; "e2"];
     extra_curselection := [0; 1]%nat |}.

(** The selection of the specification's example: quality [q1] and
    style [anime]. *)
Definition two_selected : app :=
  {| generated_prompts := ∅;
     prompt_presets := λ cat,
       match cat with
       | quality => [{| name := "q1"; value := "masterpiece" |}]
       | style => [{| name := "anime"; value := "anime style" |}]
       | _ => []
       end;
     comfyui_settings := Comfyui.default_settings;
     prompt_vars := λ cat,
       match cat with
       | quality => "q1"
       | style => "anime"
       | _ => EmptyString
       end;
     comfyui_url_var := Comfyui.BASE_URL;
     comfyui_status_var := NotChecked;
     extra_listbox := [];
     extra_curselection := [] |}.

(** A category whose preset names lie inside one another, the longest
    one selected, and two of three rows of the multi-select list
    selected. *)
Definition shelf : app :=
  {| generated_prompts := <["old" := "kept"]> (<["stale" := "dropped"]> ∅);
     prompt_presets := λ cat,
       match cat with
       | pose => [{| name := "a"; value := "sitting" |};
                  {| name := "ab"; value := "standing" |};
                  {| name := "c"; value := "running" |}]
       | extra => [{| name := "e1"; value := "x" |};
                   {| name := "e2"; value := "y" |};
                   {| name := "e3"; value := "z" |}]
       | _ => []
       end;
     comfyui_settings := Comfyui.default_settings;
     prompt_vars := λ cat, match cat with pose => "ab" | _ => EmptyString end;
     comfyui_url_var := Comfyui.BASE_URL;
     comfyui_status_var := NotChecked;
     extra_listbox := ["e1"; "e2"; "e3"];
     extra_curselection := [0; 2]%nat |}.

(** Two generated prompts, one of them blank, and settings with a
    fixed seed. *)
Definition sender : app :=
  {| generated_prompts := <["cat" := "a cat"]> (<["blank" := EmptyString]> ∅);
     prompt_presets := λ _, [];
     comfyui_settings := <["seed" := SInt 42]> Comfyui.default_settings;
     prompt_vars := λ _, EmptyString;
     comfyui_url_var := Comfyui.BASE_URL;
     comfyui_status_var := NotChecked;
     extra_listbox := [];
     extra_curselection := [] |}.

(** Nothing selected anywhere. *)
Definition idle : app :=
  {| generated_prompts := <["old" := "kept"]> ∅;
     prompt_presets := prompt_presets studio;
     comfyui_settings := Comfyui.default_settings;
     prompt_vars := λ _, EmptyString;
     comfyui_url_var := Comfyui.BASE_URL;
     comfyui_status_var := NotChecked;
     extra_listbox := ["e1"; "e2"];
     extra_curselection := [] |}.


Definition legacy_doc : gmap string json :=
  <["quality" := JArr [JStr "masterpiece"; JStr "best quality"]]>
  (<["pose" := JArr []]> ∅).

Definition with_presets_file (doc : gmap string json) : state :=
  {| log := []; draws := 0;
     disk := <[DataManager.PROMPT_PRESETS_FILE := Document (JObj doc)]> ∅ |}.

(** [s] between double quotes. *)
Definition quoted (s : string) : string :=
  String PyStr.dquote (s +:+ String PyStr.dquote EmptyString).

(** Two small workflow templates, without and with a LoRA node. *)
Definition base_json : string :=
  "{" +:+ quoted "ckpt" +:+ ": " +:+ quoted "%CHECKPOINT%" +:+ ", "
  +:+ quoted "text" +:+ ": " +:+ quoted "%PROMPT%" +:+ ", "
  +:+ quoted "seed" +:+ ": %SEED%}".

Definition base_lora_json : string :=
  "{" +:+ quoted "ckpt" +:+ ": " +:+ quoted "%CHECKPOINT%" +:+ ", "
  +:+ quoted "lora" +:+ ": " +:+ quoted "%LORA%" +:+ ", "
  +:+ quoted "text" +:+ ": " +:+ quoted "%PROMPT%" +:+ ", "
  +:+ quoted "seed" +:+ ": %SEED%}".

Definition workflows (path : string) : option string :=
  if bool_decide (path = "workflows/base.json") then Some base_json
  else if bool_decide (path = "workflows/base-lora.json") then Some base_lora_json
  else None.

(** The document [json.loads] makes of an instantiated [base_json]. *)
Definition base_document (ckpt text : string) (seed : Z) : json :=
  JObj (<["ckpt" := JStr ckpt]> (<["text" := JStr text]> (<["seed" := JVal (SInt seed)]> ∅))).

(** The text of [base_json] with its three placeholders filled in;
    [base_document] is what a JSON parser makes of it when [ckpt] and
    [text] need no escaping. *)
Definition base_text (ckpt text : string) (seed : Z) : string :=
  "{" +:+ quoted "ckpt" +:+ ": " +:+ quoted ckpt +:+ ", "
  +:+ quoted "text" +:+ ": " +:+ quoted text +:+ ", "
  +:+ quoted "seed" +:+ ": " +:+ pretty seed +:+ "}".

Definition default_checkpoint : string := "waiNSFWIllustrious_v120.safetensors".

(** The parses of the two texts the samples below submit. *)
Definition sample_parses : list (string * json) :=
  [ (base_text default_checkpoint "a cat" 42,
     base_document default_checkpoint "a cat" 42);
    (base_text default_checkpoint "seed 42 cfg 3.0" 42,
     base_document default_checkpoint "seed 42 cfg 3.0" 42) ].

(** A parser that knows the texts listed in [parses]. *)
Definition loads_known (parses : list (string * json)) (s : string) : option json :=
  snd <$> List.find (λ p, bool_decide (fst p = s)) parses.

(** A server that answers every request with [r]. *)
Definition answering (parses : list (string * json)) (raw : N) (r : response) : world :=
  {| templates := workflows;
     entropy := λ _, raw;
     json_loads := loads_known parses;
     http_get := λ _, inr r;
     http_post := λ _ _, inr r |}.

(** No server: every request ends in a connection error. *)
Definition unreachable (parses : list (string * json)) (raw : N) : world :=
  {| templates := workflows;
     entropy := λ _, raw;
     json_loads := loads_known parses;
     http_get := λ _, inl (RequestException "ConnectionError");
     http_post := λ _ _, inl (RequestException "ConnectionError") |}.

Definition ok_response : response :=
  {| status_code := 200; text := "{}"; json_result := inr (JObj ∅) |}.

Definition null_response : response :=
  {| status_code := 200; text := "null"; json_result := inr JNull |}.

Definition error_response : response :=
  {| status_code := 500; text := "Internal Server Error"; json_result := inl JSONDecodeError |}.

(** Settings with a fixed seed, and the same with no LoRA object. *)
Definition seed_42 : gmap string scalar :=
  <["seed" := SInt 42]> Comfyui.default_settings.

Definition lora_none : gmap string scalar :=
  <["lora" := SNone]> seed_42.

Definition with_lora : gmap string scalar :=
  <["lora" := SStr "detail.safetensors"]> seed_42.

End Samples.

(* ===================================================================== *)
(** * Properties *)
(* ===================================================================== *)

(** ** Facts about the string methods *)

Module PyStrFacts.
Import PyStr.

Lemma app_nil_l (t : string) : "" +:+ t = t.
Proof. reflexivity. Qed.

Lemma app_cons (c : ascii) (s t : string) : String c s +:+ t = String c (s +:+ t).
Proof. reflexivity. Qed.

Lemma app_nil_r (s : string) : s +:+ "" = s.
Proof. induction s as [|c s IH]; [done | by rewrite app_cons, IH]. Qed.

Lemma app_assoc (a b c : string) : (a +:+ b) +:+ c = a +:+ (b +:+ c).
Proof. induction a as [|x a IH]; [done | by rewrite !app_cons, IH]. Qed.

Lemma nonempty_true (s : string) : nonempty s = true ↔ s ≠ "".
Proof. destruct s; simpl; split; congruence. Qed.

Lemma nonempty_false (s : string) : nonempty s = false ↔ s = "".
Proof. destruct s; simpl; split; congruence. Qed.

Lemma join_cons (sep p : string) (rest : list string) :
  rest ≠ [] → join sep (p :: rest) = p +:+ sep +:+ join sep rest.
Proof. destruct rest; [done | reflexivity]. Qed.

Lemma count_char_app (c : ascii) (a b : string) :
  count_char c (a +:+ b) = (count_char c a + count_char c b)%nat.
Proof. induction a as [|x a IH]; [done | rewrite app_cons; simpl; rewrite IH; lia]. Qed.

(** The separators of a joined text are those of its parts and one
    separator text between neighbours. *)
Lemma count_char_join (c : ascii) (sep : string) (parts : list string) :
  count_char c (join sep parts)
  = (list_sum (count_char c <$> parts) + (length parts - 1) * count_char c sep)%nat.
Proof.
  induction parts as [|p rest IH]; [reflexivity|].
  destruct rest as [|q rest].
  - simpl. lia.
  - rewrite join_cons by done. rewrite !count_char_app, IH.
    simpl length. simpl list_sum. simpl fmap. lia.
Qed.

Lemma join_nonempty (sep : string) (parts : list string) :
  parts ≠ [] → Forall (λ p, p ≠ "") parts → join sep parts ≠ "".
Proof.
  destruct parts as [|p rest]; [done|]. intros _ Hne.
  apply Forall_cons in Hne as [Hp _].
  destruct rest; simpl; destruct p; rewrite ?app_cons; congruence.
Qed.


Lemma startswith_char_free (c : ascii) (s t : string) :
  count_char c s = 0%nat → s ≠ "" → startswith (s +:+ t) (String c "") = false.
Proof.
  destruct s as [|a s]; [done|]. intros Hc _. rewrite app_cons. simpl in *.
  rewrite Ascii.eqb_sym. destruct (Ascii.eqb a c); [lia | done].
Qed.

Lemma length_app (a b : string) :
  String.length (a +:+ b) = (String.length a + String.length b)%nat.
Proof. induction a as [|x a IH]; [done | rewrite app_cons; simpl; by rewrite IH]. Qed.

Lemma endswith_app (a b p : string) :
  (String.length p ≤ String.length b)%nat → b ≠ "" →
  endswith (a +:+ b) p = endswith b p.
Proof.
  intros Hlen Hb. induction a as [|x a IH]; [done|].
  rewrite app_cons. simpl. rewrite IH. case_bool_decide as Heq; [|done].
  exfalso. apply (f_equal String.length) in Heq. simpl in Heq.
  rewrite length_app in Heq. lia.
Qed.

Lemma endswith_char_free (c : ascii) (s : string) :
  count_char c s = 0%nat → endswith s (String c "") = false.
Proof.
  induction s as [|a s IH]; intros Hc; [done|]. simpl in *.
  case_bool_decide as Heq.
  - injection Heq as -> ->. rewrite Ascii.eqb_refl in Hc. lia.
  - apply IH. lia.
Qed.

Lemma contains_char_free (c : ascii) (s t pat : string) :
  count_char c s = 0%nat →
  contains (s +:+ t) (String c pat) = contains t (String c pat).
Proof.
  induction s as [|a s IH]; intros Hc; [done|]. rewrite app_cons. simpl in *.
  rewrite Ascii.eqb_sym. destruct (Ascii.eqb a c); [lia|]. apply IH. lia.
Qed.

(** Joining non-empty parts that hold no separator character gives a text
    that neither starts nor ends with the separator nor doubles it. *)
Lemma join_separators (c : ascii) (parts : list string) :
  parts ≠ [] →
  Forall (λ p, p ≠ "" ∧ count_char c p = 0%nat) parts →
  let key := join (String c "") parts in
  startswith key (String c "") = false
  ∧ endswith key (String c "") = false
  ∧ contains key (String c (String c "")) = false.
Proof.
  intros Hne Hall. induction Hall as [|p rest [Hp Hc] Hrest IH]; [done|].
  destruct rest as [|q rest].
  - simpl. repeat split.
    + rewrite <- (app_nil_r p). by apply startswith_char_free.
    + by apply endswith_char_free.
    + rewrite <- (app_nil_r p). by rewrite contains_char_free.
  - destruct IH as (IH1 & IH2 & IH3); [done|].
    rewrite join_cons by done. cbv zeta. repeat split.
    + by apply startswith_char_free.
    + rewrite <- app_assoc, endswith_app; [done| |].
      * assert (join (String c "") (q :: rest) ≠ "") as Hj.
        { apply join_nonempty; [done|]. eapply Forall_impl; [exact Hrest|]. by intros ? []. }
        destruct (join (String c "") (q :: rest)); [done|]. simpl. lia.
      * apply join_nonempty; [done|]. eapply Forall_impl; [exact Hrest|]. by intros ? [].
    + rewrite contains_char_free by done. rewrite app_cons, app_nil_l.
      cbv zeta in IH1, IH3.
      set (j := join (String c "") (q :: rest)) in *.
      change (contains (String c j) (String c (String c "")))
        with (if startswith (String c j) (String c (String c "")) then true
              else contains j (String c (String c ""))).
      change (startswith (String c j) (String c (String c "")))
        with (if Ascii.eqb c c then startswith j (String c "") else false).
      by rewrite Ascii.eqb_refl, IH1.
Qed.

End PyStrFacts.

(** ** Facts about [str.replace] *)

Module ReplaceFacts.
Import PyStr PyStrFacts.

Lemma startswith_app (p rest : string) : startswith (p +:+ rest) p = true.
Proof.
  induction p as [|c p IH]; [by destruct rest|].
  rewrite app_cons. simpl. by rewrite Ascii.eqb_refl.
Qed.

Lemma replace_scan_skip (old new p rest : string) :
  replace_scan old new (String.length p) (p +:+ rest) = replace_scan old new 0 rest.
Proof. induction p as [|c p IH]; [done|]. rewrite app_cons. simpl. apply IH. Qed.

(** The three equations of [str.replace] for a non-empty pattern: the
    empty text is left as it is; a text that starts with the pattern
    gives the new text followed by the replacement of what follows the
    pattern; any other text keeps its first character. *)
Lemma replace_nil (old new : string) : old ≠ "" → replace "" old new = "".
Proof. by destruct old. Qed.

Lemma replace_match (old new rest : string) :
  old ≠ "" → replace (old +:+ rest) old new = new +:+ replace rest old new.
Proof.
  destruct old as [|a old]; [done|]. intros _. unfold replace.
  rewrite app_cons.
  change (replace_scan (String a old) new 0 (String a (old +:+ rest)))
    with (if startswith (String a (old +:+ rest)) (String a old)
          then new +:+ replace_scan (String a old) new
                         (String.length (String a old) - 1) (old +:+ rest)
          else String a (replace_scan (String a old) new 0 (old +:+ rest))).
  rewrite <- app_cons, startswith_app. simpl String.length.
  replace (S (String.length old) - 1)%nat with (String.length old) by lia.
  by rewrite replace_scan_skip.
Qed.

Lemma replace_no_match (old new : string) (c : ascii) (rest : string) :
  old ≠ "" → startswith (String c rest) old = false →
  replace (String c rest) old new = String c (replace rest old new).
Proof.
  destruct old as [|a old]; [done|]. intros _ Hno. unfold replace.
  change (replace_scan (String a old) new 0 (String c rest))
    with (if startswith (String c rest) (String a old)
          then new +:+ replace_scan (String a old) new
                         (String.length (String a old) - 1) rest
          else String c (replace_scan (String a old) new 0 rest)).
  by rewrite Hno.
Qed.

(** A text in which the first character of the pattern does not occur
    is left as it is. *)
Lemma replace_absent (old new s : string) (a : ascii) (old' : string) :
  old = String a old' → count_char a s = 0%nat → replace s old new = s.
Proof.
  intros -> Hc. induction s as [|c s IH]; [done|].
  simpl in Hc. destruct (Ascii.eqb c a) eqn:Hca; [lia|].
  rewrite replace_no_match; [|done|].
  - rewrite IH; [done|lia].
  - simpl. rewrite Ascii.eqb_sym. by rewrite Hca.
Qed.

End ReplaceFacts.

(** ** The prompt composer *)

Module ComposerProps.
Import Py MainApp ComposerSpec PyStr PyStrFacts.

Lemma filter_none_cons (p : string) (rest : list string) :
  filter_none (p :: rest) = if nonempty p then p :: filter_none rest else filter_none rest.
Proof. reflexivity. Qed.

(** The parts kept for the key are the contributions of the categories
    that have a selection. *)
Lemma key_parts_selected (self : app) :
  filter_none (key_parts self) = key_contribution self <$> selected_categories self.
Proof.
  unfold key_parts, selected_categories, PROMPT_KEY_ORDER, key_parts_of, key_contribution.
  cbn -[join filter_none decide].
  repeat match goal with |- context [decide (?c = EXTRA_CATEGORY)] =>
    let d := eval vm_compute in (decide (c = EXTRA_CATEGORY)) in
    change (decide (c = EXTRA_CATEGORY)) with d end.
  cbv iota.
  assert (extra_curselection self = [] →
          join "_" (extra_get self <$> extra_curselection self) = "") as Hnone
    by (by intros ->).
  destruct (extra_curselection self) as [|i sel] eqn:Esel.
  - rewrite Hnone by done.
    destruct (prompt_vars self character) eqn:E1, (prompt_vars self pose) eqn:E2,
      (prompt_vars self style) eqn:E3, (prompt_vars self quality) eqn:E4;
      cbn; rewrite ?E1, ?E2, ?E3, ?E4; reflexivity.
  - clear Hnone.
    destruct (join "_" (extra_get self <$> i :: sel)) eqn:E0,
      (prompt_vars self character) eqn:E1, (prompt_vars self pose) eqn:E2,
      (prompt_vars self style) eqn:E3, (prompt_vars self quality) eqn:E4;
      cbn -[join]; rewrite ?E0, ?E1, ?E2, ?E3, ?E4; reflexivity.
Qed.

Lemma selected_nonempty (self : app) :
  Forall (λ p, p ≠ "") (key_contribution self <$> selected_categories self).
Proof.
  apply Forall_fmap, Forall_forall. intros cat Hin.
  apply list_elem_of_In, filter_In in Hin as [_ Hne]. by apply nonempty_true.
Qed.

Lemma final_key_selected (self : app) :
  final_key self = join "-" (key_contribution self <$> selected_categories self).
Proof. unfold final_key. by rewrite key_parts_selected. Qed.

(** C3: when at least one category has a selection, the key is the
    join, by one hyphen each, of the texts of exactly the categories
    that have a selection (themselves non-empty), and the text of the
    multi-select category is the join of the selected names by one
    underscore each.  So the hyphens (underscores) of the key are those
    inside the selected names plus one per join, and when the joined
    texts hold no hyphen the key neither starts nor ends with a hyphen
    nor holds two in a row: a category without a selection adds no
    separator; and when the selected names of the multi-select category
    are non-empty and hold no underscore, their joined text neither
    starts nor ends with an underscore nor holds two in a row. *)
Theorem key_separators_come_from_joins (self : app) :
  final_key self ≠ "" →
  let parts := key_contribution self <$> selected_categories self in
  let extras := extra_get self <$> extra_curselection self in
  parts ≠ []
  ∧ Forall (λ p, p ≠ "") parts
  ∧ final_key self = join "-" parts
  ∧ key_contribution self EXTRA_CATEGORY = join "_" extras
  ∧ count_char "-" (final_key self)
    = (list_sum (count_char "-" <$> parts) + (length parts - 1))%nat
  ∧ count_char "_" (join "_" extras)
    = (list_sum (count_char "_" <$> extras) + (length extras - 1))%nat
  ∧ (Forall (λ p, count_char "-" p = 0%nat) parts →
     startswith (final_key self) "-" = false
     ∧ endswith (final_key self) "-" = false
     ∧ contains (final_key self) "--" = false)
  ∧ (extras ≠ [] → Forall (λ n, n ≠ "" ∧ count_char "_" n = 0%nat) extras →
     startswith (join "_" extras) "_" = false
     ∧ endswith (join "_" extras) "_" = false
     ∧ contains (join "_" extras) "__" = false).
Proof.
  intros Hkey parts extras.
  assert (parts ≠ []) as Hparts.
  { intros Hnil. apply Hkey. rewrite final_key_selected. fold parts. by rewrite Hnil. }
  pose proof (selected_nonempty self) as Hne. fold parts in Hne.
  split_and!; try done.
  - apply final_key_selected.
  - rewrite final_key_selected. fold parts. rewrite count_char_join. simpl. lia.
  - rewrite count_char_join. simpl. lia.
  - intros Hfree. rewrite final_key_selected. fold parts.
    apply (join_separators "-" parts Hparts).
    apply Forall_and. by split.
  - intros Hextras Hnames. by apply (join_separators "_" extras).
Qed.

Lemma key_separators_witness :
  final_key Samples.studio ≠ ""
  ∧ final_key Samples.studio = "gone-anime-e1_e2-q1"
  ∧ contains (final_key Samples.studio) "--" = false.
Proof.
  assert (final_key Samples.studio ≠ "") as Hkey by (vm_compute; discriminate).
  assert (Forall (λ p, count_char "-" p = 0%nat)
            (key_contribution Samples.studio <$> selected_categories Samples.studio))
    as Hfree by (vm_compute; repeat constructor).
  pose proof (key_separators_come_from_joins Samples.studio Hkey)
    as (_ & _ & Hjoin & _ & _ & _ & Hsep & _).
  split; [exact Hkey|]. split; [rewrite Hjoin; reflexivity|].
  exact (proj2 (proj2 (Hsep Hfree))).
Defined.

Lemma generate_empty_key (self : app) (st : state) :
  final_key self = "" →
  generate_prompt_string self st = (inr self, warned st).
Proof. intros Hkey. unfold generate_prompt_string. by rewrite Hkey. Qed.

Lemma no_selection_empty_key (self : app) :
  (∀ cat, cat ∈ PROMPT_CATEGORIES → prompt_vars self cat = "") →
  extra_curselection self = [] →
  final_key self = "".
Proof.
  intros Hvars Hsel. unfold final_key, key_parts, PROMPT_KEY_ORDER, key_parts_of.
  cbn -[join filter_none]. rewrite Hsel.
  rewrite (Hvars character), (Hvars pose), (Hvars style), (Hvars quality)
    by (unfold PROMPT_CATEGORIES; set_solver).
  reflexivity.
Qed.

(** C2: when no single-select category has a name selected and no row
    of the multi-select list is selected, the key is empty and
    [generate_prompt_string] only shows its warning: the application it
    leaves is the one it found (the mapping of generated prompts
    included, so no entry with an empty key appears), and nothing is
    written to disk. *)
Theorem generate_without_selection (self : app) (st : state) :
  (∀ cat, cat ∈ PROMPT_CATEGORIES → prompt_vars self cat = "") →
  extra_curselection self = [] →
  final_key self = ""
  ∧ generate_prompt_string self st = (inr self, warned st)
  ∧ disk (warned st) = disk st.
Proof.
  intros Hvars Hsel.
  pose proof (no_selection_empty_key self Hvars Hsel) as Hkey.
  split_and!; [done | by apply generate_empty_key | done].
Qed.

Lemma generate_without_selection_witness :
  (∀ cat, cat ∈ PROMPT_CATEGORIES → prompt_vars Samples.idle cat = "")
  ∧ extra_curselection Samples.idle = []
  ∧ generate_prompt_string Samples.idle Samples.fresh
    = (inr Samples.idle, warned Samples.fresh).
Proof.
  assert (∀ cat, cat ∈ PROMPT_CATEGORIES → prompt_vars Samples.idle cat = "")
    as Hvars by (intros; reflexivity).
  split; [exact Hvars|]. split; [reflexivity|].
  exact (proj1 (proj2 (generate_without_selection Samples.idle Samples.fresh Hvars eq_refl))).
Defined.

(** The handler never files anything under the empty key. *)
Lemma generate_never_adds_empty_key (self self' : app) (st st' : state) :
  generate_prompt_string self st = (inr self', st') →
  generated_prompts self' !! "" = generated_prompts self !! "".
Proof.
  unfold generate_prompt_string. destruct (nonempty (final_key self)) eqn:Hne; simpl.
  - intros [= <- <-]. simpl. apply lookup_insert_ne.
    apply nonempty_true in Hne. congruence.
  - by intros [= <- <-].
Qed.

(** With a key, the handler files the prompt under it and writes the
    mapping to disk. *)
Lemma generate_with_key (self : app) (st : state) :
  final_key self ≠ "" →
  ∃ self' st',
    generate_prompt_string self st = (inr self', st')
    ∧ generated_prompts self' = <[final_key self := full_prompt self]> (generated_prompts self)
    ∧ disk st' !! DataManager.GENERATED_PROMPTS_FILE
      = Some (Document (JObj (JStr <$> generated_prompts self'))).
Proof.
  intros Hne. apply nonempty_true in Hne.
  unfold generate_prompt_string. rewrite Hne. simpl.
  eexists _, _. split; [reflexivity|]. split; [reflexivity|].
  simpl. apply lookup_insert_eq.
Qed.


Lemma find_absent {A} (f : A → bool) (l : list A) :
  (∀ x, x ∈ l → f x = false) → List.find f l = None.
Proof.
  induction l as [|a l IH]; intros Hall; [done|]. simpl.
  rewrite (Hall a) by set_solver. apply IH. intros x Hx. apply Hall. set_solver.
Qed.

(** A name that no preset of the category bears resolves to nothing. *)
Lemma lookup_value_stale (presets : list PromptFragment) (selected : string) :
  (∀ p, p ∈ presets → name p ≠ selected) → lookup_value presets selected = None.
Proof.
  intros Hstale. unfold lookup_value. rewrite find_absent; [done|].
  intros p Hp. apply bool_decide_eq_false. by apply Hstale.
Qed.

Lemma filter_none_keeps (x : string) (l : list string) :
  x ∈ l → x ≠ "" → ∃ before after, filter_none l = before ++ x :: after.
Proof.
  intros Hin Hx. apply list_elem_of_In, in_split in Hin as (l1 & l2 & ->).
  exists (filter_none l1), (filter_none l2). unfold filter_none.
  rewrite List.filter_app. simpl. apply nonempty_true in Hx. by rewrite Hx.
Qed.

Lemma single_select_in_key_parts (self : app) (cat : category) :
  cat ∈ PROMPT_CATEGORIES → prompt_vars self cat ∈ key_parts self.
Proof.
  intros Hcat. apply list_elem_of_In in Hcat. apply list_elem_of_In.
  unfold key_parts. apply in_flat_map. exists cat. split.
  - destruct cat; simpl in *; tauto.
  - unfold key_parts_of. destruct cat; simpl in *; try tauto.
    intuition discriminate.
Qed.

Lemma value_parts_cleared (self : app) (cat c : category) :
  cat ∈ PROMPT_CATEGORIES →
  value_parts_of self cat = [] →
  value_parts_of (clear_selection self cat) c = value_parts_of self c.
Proof.
  intros Hcat Hnil. unfold value_parts_of at 1. simpl.
  destruct (decide (c = EXTRA_CATEGORY)) as [->|Hc].
  - unfold value_parts_of. by rewrite decide_True by done.
  - destruct (decide (c = cat)) as [->|Hne]; simpl.
    + by rewrite Hnil.
    + unfold value_parts_of. by rewrite decide_False by done.
Qed.

(** C9: a single-select category whose selected name is borne by no
    preset of the category still has that name among the joined parts of
    the key, while it appends nothing to the parts of the prompt text:
    the text is the one composed with that selection emptied. *)
Theorem stale_name_in_key_not_in_prompt (self : app) (cat : category) :
  cat ∈ PROMPT_CATEGORIES →
  prompt_vars self cat ≠ "" →
  (∀ p, p ∈ prompt_presets self cat → name p ≠ prompt_vars self cat) →
  (∃ before after,
      final_key self = join "-" (before ++ prompt_vars self cat :: after)
      ∧ before ++ prompt_vars self cat :: after = filter_none (key_parts self))
  ∧ value_parts_of self cat = []
  ∧ prompt_parts self = prompt_parts (clear_selection self cat)
  ∧ full_prompt self = full_prompt (clear_selection self cat).
Proof.
  intros Hcat Hsel Hstale.
  assert (value_parts_of self cat = []) as Hnil.
  { unfold value_parts_of. rewrite decide_False.
    - rewrite lookup_value_stale by done. by destruct (nonempty _).
    - intros ->. apply list_elem_of_In in Hcat. simpl in Hcat. intuition discriminate. }
  assert (prompt_parts self = prompt_parts (clear_selection self cat)) as Hparts.
  { unfold prompt_parts. apply flat_map_ext. intros c.
    symmetry. by apply value_parts_cleared. }
  split_and!.
  - destruct (filter_none_keeps _ _ (single_select_in_key_parts self cat Hcat) Hsel)
      as (before & after & Heq).
    exists before, after. unfold final_key. by rewrite Heq.
  - done.
  - done.
  - unfold full_prompt. by rewrite Hparts.
Qed.

Lemma stale_name_witness :
  character ∈ PROMPT_CATEGORIES
  ∧ prompt_vars Samples.studio character ≠ ""
  ∧ (∀ p, p ∈ prompt_presets Samples.studio character
          → name p ≠ prompt_vars Samples.studio character)
  ∧ value_parts_of Samples.studio character = []
  ∧ final_key Samples.studio = "gone-anime-e1_e2-q1"
  ∧ full_prompt Samples.studio = "masterpiece, anime style, x, y".
Proof.
  assert (character ∈ PROMPT_CATEGORIES) as Hcat
    by (unfold PROMPT_CATEGORIES; apply list_elem_of_In; simpl; tauto).
  assert (prompt_vars Samples.studio character ≠ "") as Hsel by (simpl; discriminate).
  assert (∀ p, p ∈ prompt_presets Samples.studio character
               → name p ≠ prompt_vars Samples.studio character) as Hstale
    by (intros p Hp; simpl in Hp; destruct (not_elem_of_nil p Hp)).
  split; [exact Hcat|]. split; [exact Hsel|]. split; [exact Hstale|].
  split; [|split; reflexivity].
  exact (proj1 (proj2 (stale_name_in_key_not_in_prompt Samples.studio character Hcat Hsel Hstale))).
Defined.

End ComposerProps.

(** ** The fragment store *)

Module StoreProps.
Import Py DataManager StoreSpec.

(** The loop over an object, when no value makes the legacy test raise. *)
Lemma load_categories_object (doc : gmap string json) (cats : list string)
    (data : gmap string json) :
  (∀ cat v, cat ∈ cats → doc !! cat = Some v → ∃ b, is_legacy v = inr b) →
  load_categories (JObj doc) cats data
  = (foldl (λ d cat, match doc !! cat with
                     | Some v => <[cat := normalised v]> d
                     | None => d
                     end) data cats, None).
Proof.
  revert data. induction cats as [|cat rest IH]; intros data Hok; [done|].
  simpl. unfold load_category. simpl.
  destruct (doc !! cat) as [v|] eqn:Hv.
  - rewrite bool_decide_eq_true_2 by eauto.
    destruct (Hok cat v) as [b Hb]; [set_solver | done |].
    unfold normalised. rewrite Hb.
    destruct b; apply IH; intros; eapply Hok; eauto; set_solver.
  - rewrite bool_decide_eq_false_2 by (by intros [? ?]).
    apply IH. intros; eapply Hok; eauto; set_solver.
Qed.


Lemma foldl_categories_lookup (doc : gmap string json) (cats : list string)
    (data : gmap string json) (k : string) :
  foldl (λ d cat, match doc !! cat with
                  | Some v => <[cat := normalised v]> d
                  | None => d
                  end) data cats !! k
  = if decide (k ∈ cats)
    then match doc !! k with
         | Some v => Some (normalised v)
         | None => data !! k
         end
    else data !! k.
Proof.
  revert data. induction cats as [|cat rest IH]; intros data; [done|].
  simpl. rewrite IH.
  destruct (decide (k = cat)) as [->|Hne].
  - rewrite (decide_True (P := cat ∈ cat :: rest)) by set_solver.
    destruct (doc !! cat) as [v|] eqn:Hv.
    + rewrite lookup_insert_eq. by case_decide.
    + by case_decide.
  - assert (data !! k = match doc !! cat with
                        | Some v => <[cat := normalised v]> data
                        | None => data
                        end !! k) as <-.
    { destruct (doc !! cat); [by rewrite lookup_insert_ne | done]. }
    destruct (decide (k ∈ rest)) as [Hin|Hnin].
    + rewrite decide_True; [done|]. by apply elem_of_cons; right.
    + rewrite decide_False; [done|]. by intros [?|?]%elem_of_cons.
Qed.

Lemma empty_presets_lookup (k : string) :
  empty_presets !! k = if decide (k ∈ default_categories) then Some (JArr []) else None.
Proof.
  unfold empty_presets, default_categories. simpl.
  case_decide as Hk.
  - repeat (apply elem_of_cons in Hk as [->|Hk]; [by simplify_map_eq|]).
    by apply elem_of_nil in Hk.
  - rewrite !lookup_insert_ne, lookup_empty; [done|..];
      intros <-; apply Hk; apply list_elem_of_In; simpl; tauto.
Qed.

(** Loading an object whose category values do not make the legacy test
    raise: no message, no change of state, and every category holds the
    normalised value of the document, or the empty list. *)
Lemma load_object (doc : gmap string json) (st : state) :
  disk st !! PROMPT_PRESETS_FILE = Some (Document (JObj doc)) →
  (∀ cat v, cat ∈ default_categories → doc !! cat = Some v → ∃ b, is_legacy v = inr b) →
  ∃ data,
    load_prompt_presets st = (inr data, st)
    ∧ ∀ k, data !! k
           = if decide (k ∈ default_categories)
             then Some (from_option normalised (JArr []) (doc !! k))
             else None.
Proof.
  intros Hfile Hok. eexists. split.
  - unfold load_prompt_presets, bind, path_exists, json_load. cbv beta.
    rewrite Hfile. rewrite bool_decide_eq_true_2 by eauto.
    cbv beta iota. rewrite Hfile.
    rewrite load_categories_object by done. reflexivity.
  - intros k. rewrite foldl_categories_lookup, empty_presets_lookup.
    case_decide; [|done]. by destruct (doc !! k).
Qed.







(** A category the document does not list is loaded as the empty
    sequence: the mapping saved back then has a key the document had
    not. *)
Lemma missing_category_loaded_empty (doc : gmap string json) (st : state) (cat : string) :
  disk st !! PROMPT_PRESETS_FILE = Some (Document (JObj doc)) →
  (∀ c v, c ∈ default_categories → doc !! c = Some v → ∃ b, is_legacy v = inr b) →
  cat ∈ default_categories →
  doc !! cat = None →
  ∃ data, load_prompt_presets st = (inr data, st) ∧ data !! cat = Some (JArr []).
Proof.
  intros Hfile Hok Hcat Hnone.
  destruct (load_object doc st Hfile Hok) as (data & Hload & Hdata).
  exists data. split; [done|]. by rewrite Hdata, decide_True, Hnone.
Qed.

End StoreProps.

(** ** The workflow submitter *)

Module SubmitterProps.
Import Py Comfyui SubmitterSpec PyStr PyStrFacts.

Lemma substring_prefix (a b : string) :
  String.substring 0 (String.length a) (a +:+ b) = a.
Proof.
  induction a as [|c a IH].
  - by destruct b.
  - rewrite app_cons. simpl. by rewrite IH.
Qed.

(** [json.dumps(prompt)[1:-1]] is the escaped text without its quotes. *)
Lemma slice_dumps (prompt : string) : slice_1_m1 (dumps_str prompt) = escape prompt.
Proof.
  unfold dumps_str, slice_1_m1. rewrite length_app. simpl.
  replace (String.length (escape prompt) + 1 - 1)%nat
    with (String.length (escape prompt)) by lia.
  apply substring_prefix.
Qed.

(** The reading of an attribute that is there. *)
Lemma getattr_some (obj : gmap string scalar) (attr : string) (v : scalar) (st : state) :
  obj !! attr = Some v → getattr obj attr st = (inr v, st).
Proof. intros H. unfold getattr. by rewrite H. Qed.

Lemma bind_ret_l {A B} (m : Py A) (k : A → Py B) (a : A) (st st' : state) :
  m st = (inr a, st') → bind m k st = k a st'.
Proof. intros H. unfold bind. by rewrite H. Qed.

Lemma bind_raise_l {A B} (m : Py A) (k : A → Py B) (e : exn) (st st' : state) :
  m st = (inl e, st') → bind m k st = (inl e, st').
Proof. intros H. unfold bind. by rewrite H. Qed.

(** The seed is resolved without an exception. *)
Lemma seed_text_returns (w : world) (seed : scalar) (st : state) :
  seed_text w seed st
  = if is_random_seed seed
    then (inr (pretty (0 + Z.of_N (entropy w (draws st)) `mod` (2 ^ 31 - 1 - 0 + 1))), drawn st)
    else (inr (str seed), st).
Proof. unfold seed_text. by destruct (is_random_seed seed). Qed.

(** Lines 65-79 on settings that have every attribute, the checkpoint
    and the LoRA being strings: the substitutions are made one after the
    other, each on the whole text the previous one left. *)
Lemma substitute_chain (w : world) (s : gmap string scalar) (prompt template : string)
    (st : state) (checkpoint lora : string)
    (latent_width latent_height batch_size seed steps cfg : scalar) :
  s !! "checkpoint" = Some (SStr checkpoint) →
  s !! "lora" = Some (SStr lora) →
  s !! "latent_width" = Some latent_width →
  s !! "latent_height" = Some latent_height →
  s !! "batch_size" = Some batch_size →
  s !! "seed" = Some seed →
  s !! "steps" = Some steps →
  s !! "cfg" = Some cfg →
  ∃ seed_str st',
    seed_text w seed st = (inr seed_str, st')
    ∧ substitute w s prompt template st
      = (inr (substituted_from_seed seed_str steps cfg
                (substituted_before_seed checkpoint lora prompt
                   latent_width latent_height batch_size template)), st').
Proof.
  intros Hck Hlo Hwi Hhe Hba Hse Hst Hcf.
  destruct (seed_text w seed st) as [[e|seed_str] st'] eqn:Hseed.
  { rewrite seed_text_returns in Hseed. by destruct (is_random_seed seed). }
  exists seed_str, st'. split; [done|].
  unfold substitute.
  rewrite (bind_ret_l _ _ _ _ _ (getattr_some _ _ _ _ Hck)). simpl str_replace.
  unfold bind at 1. unfold ret at 1.
  rewrite (bind_ret_l _ _ _ _ _ (getattr_some _ _ _ _ Hlo)). simpl str_replace.
  unfold bind at 1. unfold ret at 1.
  rewrite (bind_ret_l _ _ _ _ _ (getattr_some _ _ _ _ Hwi)).
  rewrite (bind_ret_l _ _ _ _ _ (getattr_some _ _ _ _ Hhe)).
  rewrite (bind_ret_l _ _ _ _ _ (getattr_some _ _ _ _ Hba)).
  rewrite (bind_ret_l _ _ _ _ _ (getattr_some _ _ _ _ Hse)).
  rewrite (bind_ret_l _ _ _ _ _ Hseed).
  rewrite (bind_ret_l _ _ _ _ _ (getattr_some _ _ _ _ Hst)).
  rewrite (bind_ret_l _ _ _ _ _ (getattr_some _ _ _ _ Hcf)).
  unfold ret, substituted_from_seed, substituted_before_seed.
  by rewrite slice_dumps.
Qed.


(** The seeds that make [send_workflow] draw a number. *)
Lemma is_random_seed_iff (seed : scalar) :
  is_random_seed seed = true
  ↔ seed = SStr "RANDOM" ∨ seed = SInt (-1) ∨ seed = SStr "-1" ∨ seed = SFloat "-1.0".
Proof.
  unfold is_random_seed, eq_str, eq_int. change (pretty (-1) +:+ ".0") with "-1.0".
  split.
  - destruct seed as [|b|z|repr|s]; simpl; repeat case_bool_decide;
      simpl; subst; try discriminate; try tauto.
    destruct b; discriminate.
  - intros [Hs|[Hs|[Hs|Hs]]]; rewrite Hs; reflexivity.
Qed.

Lemma randint_range (w : world) (a b : Z) (st : state) :
  a ≤ b →
  ∃ r, a ≤ r ≤ b ∧ randint w a b st = (inr r, drawn st).
Proof.
  intros Hab. eexists. split; [|reflexivity].
  pose proof (Z.mod_pos_bound (Z.of_N (entropy w (draws st))) (b - a + 1)). lia.
Qed.

(** Every number of the closed range is drawn for some randomness. *)
Lemma randint_reaches (w : world) (a b r : Z) (st : state) :
  a ≤ r ≤ b →
  entropy w (draws st) = Z.to_N (r - a) →
  randint w a b st = (inr r, drawn st).
Proof.
  intros Hr Hraw. unfold randint. rewrite Hraw, Z2N.id by lia.
  rewrite Z.mod_small by lia. do 2 f_equal. lia.
Qed.

(** C1, as the code has it: on settings that have every attribute (the
    checkpoint and the LoRA being strings), when the seed is the string
    RANDOM, the string -1, or equal to the integer -1 (the integer -1 or
    the float -1.0), the [%SEED%] placeholder receives the decimal text
    of the number [random.randint(0, 2**31 - 1)] draws, which lies in
    the closed range from 0 to 2^31 - 1, both ends included; for every
    other seed it receives [str(seed)] and nothing is drawn. *)
Theorem seed_resolution (w : world) (s : gmap string scalar) (prompt template : string)
    (st : state) (checkpoint lora : string)
    (latent_width latent_height batch_size seed steps cfg : scalar) :
  s !! "checkpoint" = Some (SStr checkpoint) →
  s !! "lora" = Some (SStr lora) →
  s !! "latent_width" = Some latent_width →
  s !! "latent_height" = Some latent_height →
  s !! "batch_size" = Some batch_size →
  s !! "seed" = Some seed →
  s !! "steps" = Some steps →
  s !! "cfg" = Some cfg →
  let before := substituted_before_seed checkpoint lora prompt
                  latent_width latent_height batch_size template in
  (seed = SStr "RANDOM" ∨ seed = SInt (-1) ∨ seed = SStr "-1" ∨ seed = SFloat "-1.0" →
   ∃ r, 0 ≤ r ≤ 2 ^ 31 - 1
        ∧ substitute w s prompt template st
          = (inr (substituted_from_seed (pretty r) steps cfg before), drawn st))
  ∧ (¬ (seed = SStr "RANDOM" ∨ seed = SInt (-1) ∨ seed = SStr "-1" ∨ seed = SFloat "-1.0") →
     substitute w s prompt template st
     = (inr (substituted_from_seed (str seed) steps cfg before), st)).
Proof.
  intros Hck Hlo Hwi Hhe Hba Hse Hst Hcf before.
  destruct (substitute_chain w s prompt template st _ _ _ _ _ _ _ _
              Hck Hlo Hwi Hhe Hba Hse Hst Hcf) as (seed_str & st' & Hseed & Hsub).
  fold before in Hsub. rewrite seed_text_returns in Hseed. split.
  - intros Hrandom. apply is_random_seed_iff in Hrandom. rewrite Hrandom in Hseed.
    injection Hseed as <- <-. eexists. split; [|exact Hsub].
    pose proof (Z.mod_pos_bound (Z.of_N (entropy w (draws st))) (2 ^ 31 - 1 - 0 + 1)). lia.
  - intros Hfixed. destruct (is_random_seed seed) eqn:Hrandom.
    + by apply is_random_seed_iff in Hrandom.
    + by injection Hseed as <- <-.
Qed.


Lemma seed_resolution_witness :
  Samples.seed_42 !! "seed" = Some (SInt 42)
  ∧ ¬ (SInt 42 = SStr "RANDOM" ∨ SInt 42 = SInt (-1)
       ∨ SInt 42 = SStr "-1" ∨ SInt 42 = SFloat "-1.0")
  ∧ substitute (Samples.answering [] 7 Samples.ok_response) Samples.seed_42
      "a cat" "%SEED%" Samples.fresh
    = (inr "42", Samples.fresh).
Proof.
  assert (¬ (SInt 42 = SStr "RANDOM" ∨ SInt 42 = SInt (-1)
             ∨ SInt 42 = SStr "-1" ∨ SInt 42 = SFloat "-1.0")) as Hfixed
    by (intros [H|[H|[H|H]]]; discriminate H).
  split; [reflexivity|]. split; [exact Hfixed|].
  exact (proj2 (seed_resolution (Samples.answering [] 7 Samples.ok_response)
                  Samples.seed_42 "a cat" "%SEED%" Samples.fresh
                  Samples.default_checkpoint "" (SInt 1216) (SInt 832) (SInt 1)
                  (SInt 42) (SInt 20) (SFloat "3.0")
                  eq_refl eq_refl eq_refl eq_refl eq_refl eq_refl eq_refl eq_refl)
               Hfixed).
Defined.

(** With the default settings (seed RANDOM) and a generator whose draw
    is 2^31 - 1, the placeholder receives 2147483647, a number outside
    the half-open range that ends before 2^31 - 1. *)
Lemma random_seed_reaches_upper_end :
  Comfyui.default_settings !! "seed" = Some (SStr "RANDOM")
  ∧ substitute (Samples.answering [] (2 ^ 31 - 1) Samples.ok_response)
      Comfyui.default_settings "a cat" "%SEED%" Samples.fresh
    = (inr "2147483647", drawn Samples.fresh)
  ∧ ¬ ∃ r, 0 ≤ r < 2 ^ 31 - 1 ∧ pretty r = "2147483647".
Proof.
  split; [reflexivity|]. split; [vm_compute; reflexivity|].
  intros (r & Hr & Hpretty).
  change "2147483647" with (pretty 2147483647) in Hpretty.
  apply (inj pretty) in Hpretty. lia.
Qed.


(** The template is chosen by the LoRA attribute alone. *)
Lemma template_path_base (lora : scalar) :
  template_path lora = "workflows/base.json" ↔ lora = SStr "" ∨ lora = SNone.
Proof.
  unfold template_path, eq_str, eq_none. split.
  - destruct lora as [|b|z|repr|s]; simpl; try discriminate; try tauto.
    case_bool_decide; subst; [tauto | discriminate].
  - intros [Hl|Hl]; rewrite Hl; reflexivity.
Qed.

Lemma template_path_lora (lora : scalar) :
  ¬ (lora = SStr "" ∨ lora = SNone) → template_path lora = "workflows/base-lora.json".
Proof.
  intros Hne. unfold template_path, eq_str, eq_none.
  destruct lora as [|b|z|repr|s]; simpl; try reflexivity; [tauto|].
  case_bool_decide; subst; [tauto | reflexivity].
Qed.

(** C8: the template read is [workflows/base.json] when the LoRA
    attribute is the empty string (or None) and
    [workflows/base-lora.json] for every other value, in particular
    every non-empty string; two settings objects with the same LoRA
    attribute read the same template whatever their other attributes. *)
Theorem template_selected_by_lora (w : world) (s : gmap string scalar)
    (lora : scalar) (st : state) :
  s !! "lora" = Some lora →
  (lora = SStr "" ∨ lora = SNone →
   read_template w s st = read_text w "workflows/base.json" st)
  ∧ (¬ (lora = SStr "" ∨ lora = SNone) →
     read_template w s st = read_text w "workflows/base-lora.json" st)
  ∧ (∀ name, lora = SStr name → name ≠ "" →
     read_template w s st = read_text w "workflows/base-lora.json" st)
  ∧ (∀ s', s' !! "lora" = Some lora → read_template w s' st = read_template w s st).
Proof.
  intros Hlora.
  assert (∀ s0, s0 !! "lora" = Some lora →
                read_template w s0 st = read_text w (template_path lora) st) as Hread.
  { intros s0 H0. unfold read_template.
    by rewrite (bind_ret_l _ _ _ _ _ (getattr_some _ _ _ _ H0)). }
  split_and!.
  - intros Hempty. rewrite (Hread s Hlora). by apply template_path_base in Hempty as ->.
  - intros Hfull. rewrite (Hread s Hlora). by rewrite template_path_lora.
  - intros name -> Hname. rewrite (Hread s Hlora). rewrite template_path_lora; [done|].
    intros [[= ->]|[=]]. done.
  - intros s' H'. by rewrite (Hread s Hlora), (Hread s' H').
Qed.

Lemma template_selected_witness :
  Samples.with_lora !! "lora" = Some (SStr "detail.safetensors")
  ∧ read_template (Samples.answering [] 0 Samples.ok_response) Samples.with_lora Samples.fresh
    = (inr Samples.base_lora_json, Samples.fresh)
  ∧ read_template (Samples.answering [] 0 Samples.ok_response) Samples.seed_42 Samples.fresh
    = (inr Samples.base_json, Samples.fresh).
Proof.
  split; [reflexivity|]. split.
  - rewrite (proj1 (proj2 (proj2
      (template_selected_by_lora (Samples.answering [] 0 Samples.ok_response)
         Samples.with_lora (SStr "detail.safetensors") Samples.fresh eq_refl)))
      "detail.safetensors" eq_refl); [reflexivity | discriminate].
  - rewrite (proj1 (template_selected_by_lora (Samples.answering [] 0 Samples.ok_response)
                      Samples.seed_42 (SStr "") Samples.fresh eq_refl));
      [reflexivity | by left].
Defined.

(** With an empty LoRA string the no-LoRA template is read and every
    substitution is made, the [%LORA%] one with the empty string. *)
Lemma lora_empty_substituted (w : world) (s : gmap string scalar) (prompt base : string)
    (st : state) (checkpoint : string)
    (latent_width latent_height batch_size seed steps cfg : scalar) :
  templates w "workflows/base.json" = Some base →
  s !! "checkpoint" = Some (SStr checkpoint) →
  s !! "lora" = Some (SStr "") →
  s !! "latent_width" = Some latent_width →
  s !! "latent_height" = Some latent_height →
  s !! "batch_size" = Some batch_size →
  s !! "seed" = Some seed →
  s !! "steps" = Some steps →
  s !! "cfg" = Some cfg →
  ∃ seed_str st',
    workflow_text w s prompt st
    = (inr (substituted_from_seed seed_str steps cfg
              (substituted_before_seed checkpoint "" prompt
                 latent_width latent_height batch_size base)), st').
Proof.
  intros Hbase Hck Hlo Hwi Hhe Hba Hse Hst Hcf.
  destruct (substitute_chain w s prompt base st _ _ _ _ _ _ _ _
              Hck Hlo Hwi Hhe Hba Hse Hst Hcf) as (seed_str & st' & _ & Hsub).
  exists seed_str, st'. unfold workflow_text.
  rewrite (bind_ret_l _ _ base st st); [done|].
  unfold read_template. rewrite (bind_ret_l _ _ _ _ _ (getattr_some _ _ _ _ Hlo)).
  change (template_path (SStr "")) with "workflows/base.json".
  unfold read_text. by rewrite Hbase.
Qed.

(** C7, at the failing input: with the LoRA attribute None the no-LoRA
    template is read, and the [%LORA%] substitution then raises a
    TypeError, which leaves [send_workflow] before anything is sent. *)
Theorem lora_none_raises_type_error (w : world) (BASE_URL : string)
    (s : gmap string scalar) (prompt : string) (st : state) (base checkpoint : string) :
  s !! "lora" = Some SNone →
  templates w "workflows/base.json" = Some base →
  s !! "checkpoint" = Some (SStr checkpoint) →
  read_template w s st = (inr base, st)
  ∧ send_workflow w BASE_URL s prompt st
    = (inl (TypeError "replace() argument 2 must be str"), st).
Proof.
  intros Hlora Hbase Hck.
  assert (read_template w s st = (inr base, st)) as Hread.
  { unfold read_template. rewrite (bind_ret_l _ _ _ _ _ (getattr_some _ _ _ _ Hlora)).
    change (template_path SNone) with "workflows/base.json".
    unfold read_text. by rewrite Hbase. }
  split; [done|].
  unfold send_workflow. apply bind_raise_l.
  unfold workflow_text. rewrite (bind_ret_l _ _ _ _ _ Hread).
  unfold substitute.
  rewrite (bind_ret_l _ _ _ _ _ (getattr_some _ _ _ _ Hck)). simpl str_replace.
  unfold bind at 1. unfold ret at 1.
  by rewrite (bind_ret_l _ _ _ _ _ (getattr_some _ _ _ _ Hlora)).
Qed.

Lemma lora_none_witness :
  Samples.lora_none !! "lora" = Some SNone
  ∧ send_workflow (Samples.answering Samples.sample_parses 0 Samples.ok_response)
      Comfyui.BASE_URL Samples.lora_none "a cat" Samples.fresh
    = (inl (TypeError "replace() argument 2 must be str"), Samples.fresh).
Proof.
  split; [reflexivity|].
  exact (proj2 (lora_none_raises_type_error
                  (Samples.answering Samples.sample_parses 0 Samples.ok_response)
                  Comfyui.BASE_URL Samples.lora_none "a cat" Samples.fresh
                  Samples.base_json Samples.default_checkpoint
                  eq_refl eq_refl eq_refl)).
Defined.


(** Once the text has been built and parsed, [send_workflow] posts it
    and what follows is decided by the answer. *)
Lemma send_workflow_posts (w : world) (BASE_URL : string) (s : gmap string scalar)
    (prompt : string) (st st1 : state) (text : string) (payload : json) :
  workflow_text w s prompt st = (inr text, st1) →
  json_loads w text = Some payload →
  let body := JObj (<["prompt" := payload]> ∅) in
  let st2 := logged (HttpPost (BASE_URL +:+ "prompt") body) st1 in
  send_workflow w BASE_URL s prompt st
  = match http_post w (BASE_URL +:+ "prompt") body with
    | inl e => (inl e, st2)
    | inr r =>
        (inr (),
         logged (Printed (if bool_decide (status_code r = 200)
                          then "Workflow sent successfully!"
                          else "Error: " +:+ pretty (status_code r) +:+ " - " +:+ Py.text r))
                st2)
    end.
Proof.
  intros Htext Hparse body st2. unfold send_workflow.
  rewrite (bind_ret_l _ _ _ _ _ Htext).
  unfold loads. rewrite Hparse. unfold bind at 1. unfold ret at 1.
  unfold requests_post, bind, emit. fold body. cbv beta iota. fold st2.
  destruct (http_post w (BASE_URL +:+ "prompt") body) as [e|r]; [done|].
  unfold ret. by case_bool_decide.
Qed.

(** The answer 200 is reported as a success and every other status as
    an error, without an exception. *)
Lemma status_is_reported (w : world) (BASE_URL : string) (s : gmap string scalar)
    (prompt : string) (st st1 : state) (text : string) (payload : json) (r : response) :
  workflow_text w s prompt st = (inr text, st1) →
  json_loads w text = Some payload →
  http_post w (BASE_URL +:+ "prompt") (JObj (<["prompt" := payload]> ∅)) = inr r →
  ∃ line st',
    send_workflow w BASE_URL s prompt st = (inr (), st')
    ∧ log st' = log st1 ++ [HttpPost (BASE_URL +:+ "prompt") (JObj (<["prompt" := payload]> ∅));
                            Printed line]
    ∧ (line = "Workflow sent successfully!" ↔ status_code r = 200).
Proof.
  intros Htext Hparse Hpost.
  rewrite (send_workflow_posts _ _ _ _ _ _ _ _ Htext Hparse). cbv zeta. rewrite Hpost.
  eexists _, _. split; [reflexivity|]. split.
  - simpl. by rewrite <- List.app_assoc.
  - case_bool_decide as H200; [done|]. split; [|done].
    intros Heq. exfalso. by destruct (pretty (status_code r)).
Qed.

(** C4, at the failing input: when the request itself fails, the
    exception [requests.post] raises leaves [send_workflow]; nothing
    is caught and nothing is printed. *)
Theorem network_failure_escapes (w : world) (BASE_URL : string)
    (s : gmap string scalar) (prompt : string) (st st1 : state)
    (text : string) (payload : json) (e : exn) :
  workflow_text w s prompt st = (inr text, st1) →
  json_loads w text = Some payload →
  http_post w (BASE_URL +:+ "prompt") (JObj (<["prompt" := payload]> ∅)) = inl e →
  send_workflow w BASE_URL s prompt st
  = (inl e, logged (HttpPost (BASE_URL +:+ "prompt") (JObj (<["prompt" := payload]> ∅))) st1).
Proof.
  intros Htext Hparse Hpost.
  rewrite (send_workflow_posts _ _ _ _ _ _ _ _ Htext Hparse). cbv zeta. by rewrite Hpost.
Qed.

Lemma network_failure_witness :
  send_workflow (Samples.unreachable Samples.sample_parses 0) Comfyui.BASE_URL
    Samples.seed_42 "a cat" Samples.fresh
  = (inl (RequestException "ConnectionError"),
     logged (HttpPost (Comfyui.BASE_URL +:+ "prompt")
               (JObj (<["prompt" := Samples.base_document Samples.default_checkpoint "a cat" 42]> ∅)))
            Samples.fresh).
Proof.
  apply (network_failure_escapes (Samples.unreachable Samples.sample_parses 0)
           Comfyui.BASE_URL Samples.seed_42 "a cat" Samples.fresh Samples.fresh
           (Samples.base_text Samples.default_checkpoint "a cat" 42));
    vm_compute; reflexivity.
Defined.

(** The same exception leaves the handler of the send button: the
    remaining prompts are not sent and no count is shown; the
    application itself is not touched by a send. *)
Lemma send_selected_prompt_raises (w : world) (self : MainApp.app) (key prompt : string)
    (rest : list string) (e : exn) (st st' : state) :
  MainApp.comfyui_status_var self = MainApp.Connected →
  MainApp.generated_prompts self !! key = Some prompt →
  prompt ≠ "" →
  send_workflow w (MainApp.comfyui_url_var self) (MainApp.comfyui_settings self) prompt st
  = (inl e, st') →
  MainApp.send_selected_prompt w self (key :: rest) st = (inl e, st').
Proof.
  intros Hstatus Hkey Hne Hsend. unfold MainApp.send_selected_prompt. rewrite Hstatus.
  apply bind_raise_l. simpl. rewrite Hkey. simpl.
  apply nonempty_true in Hne. rewrite Hne. by apply bind_raise_l.
Qed.

Lemma send_selected_prompt_keeps_app (w : world) (self self' : MainApp.app)
    (keys : list string) (st st' : state) :
  MainApp.send_selected_prompt w self keys st = (inr self', st') → self' = self.
Proof.
  unfold MainApp.send_selected_prompt.
  destruct (MainApp.comfyui_status_var self); try (by intros [= <- <-]).
  - destruct keys; [by intros [= <- <-]|]. unfold bind.
    destruct (MainApp.send_each _ _ _ _ _) as [[?|?] ?]; [done | by intros [= <- <-]].
  - destruct keys; [by intros [= <- <-]|]. unfold bind.
    destruct (MainApp.send_each _ _ _ _ _) as [[?|?] ?]; [done | by intros [= <- <-]].
Qed.


(** What [api_system_stats] returns, case by case. *)
Lemma api_system_stats_cases (w : world) (URL : string) (st : state) :
  let st1 := logged (HttpGet (URL +:+ "api/system_stats")) st in
  api_system_stats w URL st
  = match http_get w (URL +:+ "api/system_stats") with
    | inl e => if is_RequestException e then (inr JNull, st1) else (inl e, st1)
    | inr r =>
        if bool_decide (status_code r = 200)
        then match json_result r with
             | inl e => if is_RequestException e then (inr JNull, st1) else (inl e, st1)
             | inr v => (inr v, st1)
             end
        else (inr JNull,
              logged (Printed ("Error: " +:+ pretty (status_code r) +:+ " - " +:+ text r)) st1)
    end.
Proof.
  intros st1. unfold api_system_stats, try_except, requests_get, bind, emit.
  cbv beta iota. fold st1.
  destruct (http_get w (URL +:+ "api/system_stats")) as [e|r]; [done|].
  unfold ret. case_bool_decide; [|done].
  unfold response_json. by destruct (json_result r) as [e|v].
Qed.

(** C5, as the code has it: the probe answers true exactly when the GET
    returns status 200 with a body that parses to a value Python counts
    as true (not null, false, 0, an empty string, list or object); it
    answers false for every other status, for every
    [requests.RequestException] raised by the request or by the parsing
    of the body. *)
Theorem probe_true_iff (w : world) (URL : string) (st : state) :
  ((∃ st', probe w URL st = (inr true, st'))
   ↔ ∃ r v, http_get w (URL +:+ "api/system_stats") = inr r
            ∧ status_code r = 200 ∧ json_result r = inr v ∧ truthy v = true)
  ∧ (∀ r, http_get w (URL +:+ "api/system_stats") = inr r → status_code r ≠ 200 →
       ∃ st', probe w URL st = (inr false, st'))
  ∧ (∀ e, http_get w (URL +:+ "api/system_stats") = inl e → is_RequestException e = true →
       ∃ st', probe w URL st = (inr false, st'))
  ∧ (∀ r e, http_get w (URL +:+ "api/system_stats") = inr r → status_code r = 200 →
       json_result r = inl e → is_RequestException e = true →
       ∃ st', probe w URL st = (inr false, st')).
Proof.
  unfold probe, bind. rewrite api_system_stats_cases. cbv zeta. unfold ret.
  destruct (http_get w (URL +:+ "api/system_stats")) as [e|r] eqn:Hget.
  { split_and!.
    - split.
      + intros [st' H]. destruct (is_RequestException e); simplify_eq.
      + intros (r & v & ? & _). simplify_eq.
    - intros; simplify_eq; try congruence.
    - intros e' ? He. simplify_eq. rewrite He. eauto.
    - intros; simplify_eq; try congruence. }
  case_bool_decide as H200; cycle 1.
  { split_and!.
    - split.
      + intros [st' H]. simplify_eq.
      + intros (r' & v & ? & ? & _). simplify_eq.
    - intros. eauto.
    - intros; simplify_eq; try congruence.
    - intros; simplify_eq; try congruence. }
  destruct (json_result r) as [e|v] eqn:Hjson.
  { split_and!.
    - split.
      + intros [st' H]. destruct (is_RequestException e); simplify_eq.
      + intros (r' & v & ? & _ & Hv & _). simplify_eq. congruence.
    - intros; simplify_eq; try congruence.
    - intros; simplify_eq; try congruence.
    - intros r' e' ? _ He' He. simplify_eq. rewrite Hjson in He'. simplify_eq.
      rewrite He. eauto. }
  split_and!.
  - split.
    + intros [st' H]. simplify_eq. exists r, v. by rewrite Hjson.
    + intros (r' & v' & ? & _ & Hv & Htrue). simplify_eq. rewrite Hjson in Hv.
      simplify_eq. rewrite Htrue. eauto.
  - intros; simplify_eq; try congruence.
  - intros; simplify_eq; try congruence.
  - intros; simplify_eq; try congruence.
Qed.

Lemma probe_true_witness :
  probe (Samples.answering [] 0
           {| status_code := 200; text := "[1]"; json_result := inr (JArr [JVal (SInt 1)]) |})
        Comfyui.BASE_URL Samples.fresh
  = (inr true, logged (HttpGet (Comfyui.BASE_URL +:+ "api/system_stats")) Samples.fresh)
  ∧ ∃ st', probe (Samples.answering [] 0 Samples.error_response)
             Comfyui.BASE_URL Samples.fresh = (inr false, st').
Proof.
  split; [reflexivity|].
  apply (proj1 (proj2 (probe_true_iff (Samples.answering [] 0 Samples.error_response)
                         Comfyui.BASE_URL Samples.fresh)) Samples.error_response eq_refl).
  vm_compute. discriminate.
Defined.

(** A server that answers 200 with the body [null] (or any other body
    that parses to a false value): the GET returned 200 with a parseable
    body, and the probe answers false. *)
Lemma probe_false_on_null_body :
  let w := Samples.answering [] 0 Samples.null_response in
  (∃ r v, http_get w (Comfyui.BASE_URL +:+ "api/system_stats") = inr r
          ∧ status_code r = 200 ∧ json_result r = inr v)
  ∧ api_system_stats w Comfyui.BASE_URL Samples.fresh
    = (inr JNull, logged (HttpGet (Comfyui.BASE_URL +:+ "api/system_stats")) Samples.fresh)
  ∧ probe w Comfyui.BASE_URL Samples.fresh
    = (inr false, logged (HttpGet (Comfyui.BASE_URL +:+ "api/system_stats")) Samples.fresh)
  ∧ ¬ ∃ st', probe w Comfyui.BASE_URL Samples.fresh = (inr true, st').
Proof.
  cbv zeta. split_and!.
  - exists Samples.null_response, JNull. by split_and!.
  - reflexivity.
  - reflexivity.
  - intros [st' H]. vm_compute in H. discriminate H.
Qed.

(** An exception that is not a [requests.RequestException] is not
    caught: it leaves [api_system_stats]. *)
Lemma other_exception_escapes_probe (w : world) (URL : string) (st : state) (e : exn) :
  http_get w (URL +:+ "api/system_stats") = inl e →
  is_RequestException e = false →
  api_system_stats w URL st = (inl e, logged (HttpGet (URL +:+ "api/system_stats")) st).
Proof. intros Hget He. rewrite api_system_stats_cases. cbv zeta. by rewrite Hget, He. Qed.

(** The probe as the connection check uses it. *)
Lemma check_connection_status (w : world) (self : MainApp.app) (st st' : state) (b : bool) :
  strip (MainApp.comfyui_url_var self) MainApp.whitespace ≠ "" →
  probe w (strip (MainApp.comfyui_url_var self) MainApp.whitespace) st = (inr b, st') →
  MainApp.check_comfyui_connection w self st
  = (inr (MainApp.set_comfyui_status_var self
            (if b then MainApp.Connected else MainApp.Unreachable)), st').
Proof.
  intros Hurl Hprobe. unfold MainApp.check_comfyui_connection.
  apply nonempty_true in Hurl. rewrite Hurl. simpl.
  unfold probe, bind in Hprobe. unfold bind.
  destruct (api_system_stats _ _ _) as [[e|stats] st1]; [done|].
  unfold ret in *. injection Hprobe as <- <-. by destruct (truthy stats).
Qed.


(** On the template that is the prompt placeholder alone, the text
    left is the escaped prompt after the six later substitutions: the
    prompt is not protected from them. *)
Lemma prompt_goes_through_later_substitutions (w : world) (s : gmap string scalar)
    (prompt : string) (st : state) (checkpoint lora : string)
    (latent_width latent_height batch_size seed steps cfg : scalar) :
  s !! "checkpoint" = Some (SStr checkpoint) →
  s !! "lora" = Some (SStr lora) →
  s !! "latent_width" = Some latent_width →
  s !! "latent_height" = Some latent_height →
  s !! "batch_size" = Some batch_size →
  s !! "seed" = Some seed →
  s !! "steps" = Some steps →
  s !! "cfg" = Some cfg →
  ∃ seed_str st',
    substitute w s prompt "%PROMPT%" st
    = (inr (substituted_from_seed seed_str steps cfg
              (replace (replace (replace (escape prompt)
                 "%WIDTH%" (str latent_width))
                 "%HEIGHT%" (str latent_height))
                 "%BATCH_SIZE%" (str batch_size))), st').
Proof.
  intros Hck Hlo Hwi Hhe Hba Hse Hst Hcf.
  destruct (substitute_chain w s prompt "%PROMPT%" st _ _ _ _ _ _ _ _
              Hck Hlo Hwi Hhe Hba Hse Hst Hcf) as (seed_str & st' & _ & Hsub).
  exists seed_str, st'. rewrite Hsub. unfold substituted_before_seed.
  change (replace "%PROMPT%" "%CHECKPOINT%" checkpoint) with "%PROMPT%".
  change (replace "%PROMPT%" "%LORA%" lora) with "%PROMPT%".
  change (replace "%PROMPT%" "%PROMPT%" (escape prompt)) with (escape prompt +:+ "").
  by rewrite app_nil_r.
Qed.


End SubmitterProps.

(** ** The fragment store: any file, any document *)

Module StoreExtra.
Import Py DataManager StoreSpec Invariants.

Lemma is_legacy_upgraded (v : json) :
  is_legacy v = inr true → is_legacy (JArr (name_value <$> items_of v)) = inr false.
Proof.
  unfold is_legacy. destruct (truthy v) eqn:Ht; [|done].
  destruct v as [[| | | |s]|items|fields]; simpl in *; try done.
  - by destruct s.
  - by destruct items.
Qed.

Lemma empty_presets_settled : settled empty_presets.
Proof.
  split.
  - intros k. rewrite StoreProps.empty_presets_lookup.
    case_decide; split; first [done | by eexists | by intros [? ?]].
  - intros k v. rewrite StoreProps.empty_presets_lookup. case_decide; [|done].
    by intros [= <-].
Qed.

Lemma insert_settled (data : gmap string json) (cat : string) (v : json) :
  settled data → cat ∈ default_categories → is_legacy v = inr false →
  settled (<[cat := v]> data).
Proof.
  intros [Hdom Hleg] Hcat Hv. split.
  - intros k. destruct (decide (cat = k)) as [->|Hne].
    + rewrite lookup_insert_eq. split; [done | by eexists].
    + by rewrite lookup_insert_ne.
  - intros k v'. destruct (decide (cat = k)) as [->|Hne].
    + rewrite lookup_insert_eq. by intros [= <-].
    + rewrite lookup_insert_ne by done. apply Hleg.
Qed.

(** One turn of the loop keeps the mapping settled, whatever the
    document is. *)
Lemma load_category_settled (loaded_data : json) (data data' : gmap string json)
    (cat : string) :
  settled data → cat ∈ default_categories →
  load_category loaded_data data cat = inr data' → settled data'.
Proof.
  intros Hdata Hcat. unfold load_category.
  destruct (contains_key loaded_data cat) as [e|[]]; try done.
  - destruct (getitem loaded_data cat) as [e|v]; [done|].
    destruct (is_legacy v) as [e|[]] eqn:Hv; [done|..]; intros [= <-].
    + apply insert_settled; [done..|]. by apply is_legacy_upgraded.
    + by apply insert_settled.
  - by intros [= <-].
Qed.

Lemma load_categories_settled (loaded_data : json) (cats : list string)
    (data data' : gmap string json) (oe : option exn) :
  settled data → (∀ cat, cat ∈ cats → cat ∈ default_categories) →
  load_categories loaded_data cats data = (data', oe) → settled data'.
Proof.
  revert data. induction cats as [|cat rest IH]; intros data Hdata Hcats; simpl.
  - by intros [= <- _].
  - destruct (load_category loaded_data data cat) as [e|data1] eqn:Hstep.
    + by intros [= <- _].
    + apply IH.
      * eapply load_category_settled; [done | | done]. apply Hcats. by left.
      * intros c Hc. apply Hcats. by right.
Qed.

Lemma load_prompt_presets_settled (st st' : state) (data : gmap string json) :
  load_prompt_presets st = (inr data, st') → settled data.
Proof.
  unfold load_prompt_presets, bind, path_exists. cbv beta iota.
  case_bool_decide as Hex.
  - unfold json_load. destruct (disk st !! PROMPT_PRESETS_FILE) as [[|doc]|] eqn:Hfile.
    + simpl. intros [= <- _]. apply empty_presets_settled.
    + destruct (load_categories doc default_categories empty_presets) as [data' [e|]] eqn:Hloop.
      * destruct (caught_on_load e); [|done]. simpl. intros [= <- _].
        eapply load_categories_settled; [apply empty_presets_settled | done | done].
      * intros [= <- _].
        eapply load_categories_settled; [apply empty_presets_settled | done | done].
    + done.
  - intros [= <- _]. apply empty_presets_settled.
Qed.

(** Loading never writes: the disk and the generator are as before, and
    the log grows by at most the one error box. *)
Lemma load_prompt_presets_effects (st st' : state) (r : exn + gmap string json) :
  load_prompt_presets st = (r, st') →
  disk st' = disk st ∧ draws st' = draws st
  ∧ (log st' = log st ∨ log st' = log st ++ [ShowError "prompt_presets.json"]).
Proof.
  unfold load_prompt_presets, bind, path_exists. cbv beta iota.
  case_bool_decide as Hex.
  - unfold json_load. destruct (disk st !! PROMPT_PRESETS_FILE) as [[|doc]|] eqn:Hfile.
    + simpl. intros [= <- <-]. simpl. auto.
    + destruct (load_categories doc default_categories empty_presets) as [data' [e|]] eqn:Hloop.
      * destruct (caught_on_load e); simpl; intros [= <- <-]; simpl; auto.
      * intros [= <- <-]. auto.
    + simpl. intros [= <- <-]. auto.
  - intros [= <- <-]. auto.
Qed.

(** X1: whenever [load_prompt_presets] returns, whatever the file holds
    (nothing, text that is not JSON, or any JSON document), the mapping
    it returns has exactly the five categories as keys, every other key
    of the document being dropped; and loading writes nothing to
    disk. *)
Theorem load_returns_five_categories (st st' : state) (data : gmap string json) :
  load_prompt_presets st = (inr data, st') →
  (∀ k, is_Some (data !! k) ↔ k ∈ default_categories)
  ∧ dom data = list_to_set default_categories
  ∧ disk st' = disk st.
Proof.
  intros Hload.
  destruct (load_prompt_presets_settled _ _ _ Hload) as [Hdom _].
  destruct (load_prompt_presets_effects _ _ _ Hload) as (Hdisk & _ & _).
  split_and!; [done | | done].
  apply set_eq. intros k. rewrite elem_of_dom, Hdom. by rewrite elem_of_list_to_set.
Qed.

Lemma load_returns_five_categories_witness :
  ∃ data st',
    load_prompt_presets
      (Samples.with_presets_file (<["unknown" := JArr []]> Samples.legacy_doc))
    = (inr data, st')
    ∧ data !! "unknown" = None
    ∧ data !! "style" = Some (JArr []).
Proof.
  eexists _, _. split; [vm_compute; reflexivity|].
  assert (∀ d s, load_prompt_presets
            (Samples.with_presets_file (<["unknown" := JArr []]> Samples.legacy_doc))
          = (inr d, s) →
          d !! "unknown" = None ∧ d !! "style" = Some (JArr [])) as Hkeys.
  { intros d s Hload.
    destruct (load_returns_five_categories _ _ _ Hload) as (Hdom & _ & _).
    split.
    - destruct (d !! "unknown") eqn:Hu; [|done]. exfalso.
      assert ("unknown" ∈ default_categories) as Hin by (apply Hdom; eauto).
      apply list_elem_of_In in Hin. simpl in Hin. intuition discriminate.
    - vm_compute in Hload. injection Hload as <- _. reflexivity. }
  eapply Hkeys. vm_compute. reflexivity.
Defined.






(** The legacy test raises only what the loader does not catch: a
    KeyError on a non-empty object, a TypeError on a number or boolean
    that counts as true. *)
Lemma is_legacy_raises (v : json) (e : exn) :
  is_legacy v = inl e →
  caught_on_load e = false
  ∧ ((∃ fields, v = JObj fields ∧ fields ≠ ∅ ∧ e = KeyError "0")
     ∨ (∃ x, v = JVal x ∧ truthy_scalar x = true ∧ (∀ s, x ≠ SStr s)
             ∧ e = TypeError "object is not subscriptable")).
Proof.
  unfold is_legacy. destruct (truthy v) eqn:Ht; [|done].
  destruct v as [x|items|fields]; simpl in *.
  - destruct x as [| | | |s]; try (intros [= <-]; split; [done|]; right;
      eexists; split_and!; [done | done | by intros | done]).
    by destruct s.
  - by destruct items.
  - intros [= <-]. split; [done|]. left. exists fields. split_and!; try done.
    apply negb_true_iff, bool_decide_eq_false in Ht. done.
Qed.

Lemma load_categories_app (loaded_data : json) (pre rest : list string)
    (data : gmap string json) :
  load_categories loaded_data (pre ++ rest) data
  = match load_categories loaded_data pre data with
    | (data1, None) => load_categories loaded_data rest data1
    | (data1, Some e) => (data1, Some e)
    end.
Proof.
  revert data. induction pre as [|cat pre IH]; intros data; [done|]. simpl.
  destruct (load_category loaded_data data cat); [done | apply IH].
Qed.

(** X4: the loader is not soft on a malformed category.  When the file
    holds an object and the first category (in the order quality,
    style, character, pose, extra) whose value makes the legacy test
    raise is reached, the exception (a KeyError for a non-empty object,
    a TypeError for a number or boolean that counts as true) is not
    caught: it leaves [load_prompt_presets], and no mapping is
    returned. *)
Theorem load_raises_on_malformed_category (doc : gmap string json) (st : state)
    (pre rest : list string) (cat : string) (v : json) (e : exn) :
  disk st !! PROMPT_PRESETS_FILE = Some (Document (JObj doc)) →
  default_categories = pre ++ cat :: rest →
  (∀ c w, c ∈ pre → doc !! c = Some w → ∃ b, is_legacy w = inr b) →
  doc !! cat = Some v →
  is_legacy v = inl e →
  load_prompt_presets st = (inl e, st)
  ∧ ((∃ fields, v = JObj fields ∧ fields ≠ ∅ ∧ e = KeyError "0")
     ∨ (∃ x, v = JVal x ∧ truthy_scalar x = true ∧ (∀ s, x ≠ SStr s)
             ∧ e = TypeError "object is not subscriptable")).
Proof.
  intros Hfile Hcats Hpre Hv He.
  destruct (is_legacy_raises v e He) as [Hcaught Hshape]. split; [|done].
  unfold load_prompt_presets, bind, path_exists, json_load. cbv beta iota.
  rewrite Hfile. rewrite bool_decide_eq_true_2 by eauto. cbv beta iota. rewrite Hfile.
  rewrite Hcats, load_categories_app, StoreProps.load_categories_object by done.
  simpl. unfold load_category. simpl. rewrite Hv.
  rewrite bool_decide_eq_true_2 by eauto. rewrite He. by rewrite Hcaught.
Qed.

Lemma load_raises_witness :
  load_prompt_presets
    (Samples.with_presets_file (<["style" := JVal (SInt 7)]> Samples.legacy_doc))
  = (inl (TypeError "object is not subscriptable"),
     Samples.with_presets_file (<["style" := JVal (SInt 7)]> Samples.legacy_doc)).
Proof.
  refine (proj1 (load_raises_on_malformed_category
            (<["style" := JVal (SInt 7)]> Samples.legacy_doc) _
            ["quality"] ["character"; "pose"; "extra"] "style" (JVal (SInt 7)) _
            (lookup_insert_eq _ _ _) eq_refl _ (lookup_insert_eq _ _ _) eq_refl)).
  intros c w Hc Hw. apply list_elem_of_In in Hc. simpl in Hc.
  destruct Hc as [<-|[]]. vm_compute in Hw. injection Hw as <-. by exists true.
Defined.

End StoreExtra.

(** ** The preset editing handlers *)

Module EditingProps.
Import Py DataManager MainApp Invariants PyStr PyStrFacts.







Lemma refresh_keeps_presets (self : app) (cat : category) (sel : option string) :
  prompt_presets (refresh_prompt_ui self cat sel) = prompt_presets self
  ∧ generated_prompts (refresh_prompt_ui self cat sel) = generated_prompts self.
Proof. unfold refresh_prompt_ui. by case_decide. Qed.

Lemma existsb_name (presets : list PromptFragment) (n : string) :
  existsb (λ p, bool_decide (name p = n)) presets = true ↔ n ∈ name <$> presets.
Proof.
  rewrite existsb_exists, list_elem_of_fmap. split.
  - intros (p & Hin & Hp). apply bool_decide_eq_true in Hp.
    exists p. split; [done | by apply list_elem_of_In].
  - intros (p & -> & Hin). exists p. split; [by apply list_elem_of_In|].
    by apply bool_decide_eq_true.
Qed.


(** X6: [add_prompt] refuses a blank name, a blank value (blank after
    the surrounding whitespace is removed) and a name the category
    already has: it shows one warning and leaves the application and
    the disk as they were. *)
Theorem add_prompt_refused (self : app) (cat : category) (name_entry val_entry : string)
    (st : state) :
  strip name_entry whitespace = ""
  ∨ strip val_entry whitespace = ""
  ∨ strip name_entry whitespace ∈ name <$> prompt_presets self cat →
  ∃ topic,
    add_prompt self cat name_entry val_entry st
    = (inr self, {| log := log st ++ [ShowWarning topic];
                    draws := draws st; disk := disk st |}).
Proof.
  intros Hcase. unfold add_prompt.
  destruct (nonempty (strip name_entry whitespace)) eqn:Hn; simpl; [|by eexists].
  destruct (nonempty (strip val_entry whitespace)) eqn:Hv; simpl; [|by eexists].
  destruct Hcase as [H|[H|H]].
  - rewrite H in Hn. done.
  - rewrite H in Hv. done.
  - apply existsb_name in H. rewrite H. by eexists.
Qed.

Lemma add_prompt_refused_witness :
  ∃ topic,
    add_prompt Samples.shelf pose "  ab " "kneeling" Samples.fresh
    = (inr Samples.shelf, {| log := [ShowWarning topic]; draws := 0; disk := ∅ |}).
Proof.
  refine (add_prompt_refused Samples.shelf pose "  ab " "kneeling" Samples.fresh _).
  right. right. vm_compute. apply list_elem_of_In. simpl. tauto.
Defined.



Lemma replace_first_none (sel : string) (new : PromptFragment) (l : list PromptFragment) :
  replace_first sel new l = None ↔ sel ∉ name <$> l.
Proof.
  induction l as [|p l IH]; cbn [replace_first].
  - split; [intros _; apply not_elem_of_nil | done].
  - rewrite fmap_cons, not_elem_of_cons. case_bool_decide as Hp.
    + split; [done | intros [? _]; congruence].
    + destruct (replace_first sel new l); simpl.
      * split; [done|]. intros [_ Hl]. by apply IH in Hl.
      * split; [|done]. intros _. split; [congruence | by apply IH].
Qed.

Lemma replace_first_some (sel : string) (new : PromptFragment) (l l' : list PromptFragment) :
  replace_first sel new l = Some l' →
  name new = sel ∨ name new ∉ name <$> l →
  length l' = length l
  ∧ lookup_value l' (name new) = Some (value new)
  ∧ (∀ n, n ≠ sel → n ≠ name new → lookup_value l' n = lookup_value l n)
  ∧ (∀ n, n ∈ name <$> l' → n = name new ∨ (n ∈ name <$> l ∧ n ≠ sel) ∨ n ∈ name <$> l)
  ∧ (NoDup (name <$> l) → NoDup (name <$> l')).
Proof.
  revert l'. induction l as [|p l IH]; intros l' Hrep Hnew; simpl in Hrep; [done|].
  case_bool_decide as Hp.
  - injection Hrep as <-. split_and!.
    + done.
    + unfold lookup_value. simpl. by rewrite bool_decide_eq_true_2.
    + intros n Hn1 Hn2. unfold lookup_value. simpl.
      rewrite !bool_decide_eq_false_2 by congruence. done.
    + intros n. rewrite !fmap_cons, !elem_of_cons. intros [->|Hn]; [by left|].
      right. right. by right.
    + rewrite !fmap_cons, !NoDup_cons. intros [Hnotin Hnd]. split; [|done].
      destruct Hnew as [Hnew|Hnew].
      * by rewrite Hnew, <- Hp.
      * rewrite fmap_cons, not_elem_of_cons in Hnew. by destruct Hnew.
  - destruct (replace_first sel new l) as [rest'|] eqn:Hrest; [|done].
    injection Hrep as <-.
    assert (name new ≠ name p) as Hne.
    { destruct Hnew as [Hnew|Hnew]; [congruence|].
      rewrite fmap_cons, not_elem_of_cons in Hnew. by destruct Hnew. }
    destruct (IH rest' eq_refl) as (Hlen & Hfind & Hother & Hnames & Hnd).
    { destruct Hnew as [Hnew|Hnew]; [by left|]. right.
      rewrite fmap_cons, not_elem_of_cons in Hnew. by destruct Hnew. }
    split_and!.
    + simpl. by rewrite Hlen.
    + unfold lookup_value in *. simpl. by rewrite bool_decide_eq_false_2 by congruence.
    + intros n Hn1 Hn2. unfold lookup_value in *. simpl.
      case_bool_decide; [done|]. by apply Hother.
    + intros n. rewrite !fmap_cons, !elem_of_cons. intros [->|Hn].
      * right. right. by left.
      * destruct (Hnames n Hn) as [?|[[? ?]|?]]; [by left | right; left; by split; [right|] |].
        right. right. by right.
    + rewrite !fmap_cons, !NoDup_cons. intros [Hnotin Hnd']. split; [|by apply Hnd].
      intros Hin. destruct (Hnames _ Hin) as [?|[[? ?]|?]]; congruence.
Qed.



(** X9: [edit_prompt] on a selection that names no preset of the
    category (a stale selection), the entries passing the checks: the
    loop finds nothing to replace and the handler ends without a
    message; nothing is changed and nothing is saved. *)
Theorem edit_prompt_stale_is_silent (self : app) (cat : category)
    (name_entry val_entry : string) (st : state) :
  let selected_name := first_selected (_get_selected_preset_name self cat) in
  let new_name := strip name_entry whitespace in
  selection_truthy (_get_selected_preset_name self cat) = true →
  selected_name ∉ name <$> prompt_presets self cat →
  new_name ≠ "" → strip val_entry whitespace ≠ "" →
  new_name = selected_name ∨ new_name ∉ name <$> prompt_presets self cat →
  edit_prompt self cat name_entry val_entry st = (inr self, st).
Proof.
  intros selected_name new_name Hsel Hstale Hn Hv Hnew. unfold edit_prompt.
  fold selected_name new_name. rewrite Hsel. simpl.
  apply nonempty_true in Hn, Hv. rewrite Hn, Hv. simpl.
  assert (negb (bool_decide (new_name = selected_name))
          && existsb (λ p, bool_decide (name p = new_name)) (prompt_presets self cat) = false)
    as ->.
  { destruct Hnew as [->|Hfresh]; [by rewrite bool_decide_eq_true_2|].
    destruct (existsb _ _) eqn:Hex; [by apply existsb_name in Hex|]. apply andb_false_r. }
  by rewrite (proj2 (replace_first_none selected_name _ _) Hstale).
Qed.

Lemma edit_prompt_stale_witness :
  edit_prompt Samples.studio character "hero" "a hero" Samples.fresh
  = (inr Samples.studio, Samples.fresh).
Proof.
  apply (edit_prompt_stale_is_silent Samples.studio character "hero" "a hero" Samples.fresh).
  - reflexivity.
  - vm_compute. apply not_elem_of_nil.
  - vm_compute. discriminate.
  - vm_compute. discriminate.
  - right. vm_compute. apply not_elem_of_nil.
Defined.






Lemma names_unique_refresh (self : app) (cat : category) (sel : option string) (c : category) :
  names_unique (refresh_prompt_ui self cat sel) c ↔ names_unique self c.
Proof. unfold names_unique. by rewrite (proj1 (refresh_keeps_presets self cat sel)). Qed.

Lemma names_unique_set (self : app) (cat c : category) (l : list PromptFragment) :
  NoDup (name <$> l) → names_unique self c →
  names_unique (set_prompt_presets self cat l) c.
Proof. unfold names_unique. simpl. by case_decide. Qed.

Lemma NoDup_names_filter (f : PromptFragment → bool) (l : list PromptFragment) :
  NoDup (name <$> l) → NoDup (name <$> List.filter f l).
Proof.
  induction l as [|p l IH]; [done|]. rewrite fmap_cons, NoDup_cons. intros [Hp Hl].
  simpl. destruct (f p); [|by apply IH].
  rewrite fmap_cons, NoDup_cons. split; [|by apply IH].
  intros Hin. apply Hp. apply list_elem_of_fmap in Hin as (q & -> & Hq).
  apply list_elem_of_fmap. exists q. split; [done|].
  apply list_elem_of_In in Hq. apply filter_In in Hq as [Hq _]. by apply list_elem_of_In.
Qed.

Lemma add_prompt_unique (self self' : app) (cat : category) (name_entry val_entry : string)
    (st st' : state) :
  (∀ c, names_unique self c) →
  add_prompt self cat name_entry val_entry st = (inr self', st') →
  ∀ c, names_unique self' c.
Proof.
  intros Hu. unfold add_prompt.
  destruct (negb (nonempty _) || negb (nonempty _)); [by intros [= <- _]|].
  destruct (existsb _ _) eqn:Hex; [by intros [= <- _]|].
  intros [= <- _] c. apply names_unique_refresh, names_unique_set; [|done].
  rewrite fmap_app. apply NoDup_app. split_and!; [apply Hu | | apply NoDup_singleton].
  intros n Hn Hn'. simpl in Hn'. apply list_elem_of_singleton in Hn' as ->.
  apply existsb_name in Hn. congruence.
Qed.

Lemma edit_prompt_unique (self self' : app) (cat : category) (name_entry val_entry : string)
    (st st' : state) :
  (∀ c, names_unique self c) →
  edit_prompt self cat name_entry val_entry st = (inr self', st') →
  ∀ c, names_unique self' c.
Proof.
  intros Hu. unfold edit_prompt.
  destruct (negb (selection_truthy _)); [by intros [= <- _]|].
  destruct (negb (nonempty _) || negb (nonempty _)); [by intros [= <- _]|].
  destruct (negb (bool_decide _) && existsb _ _) eqn:Hconflict; [by intros [= <- _]|].
  destruct (replace_first _ _ _) as [presets'|] eqn:Hrep; [|by intros [= <- _]].
  intros [= <- _] c. apply names_unique_refresh, names_unique_set; [|done].
  eapply replace_first_some; [exact Hrep | | apply Hu].
  apply andb_false_iff in Hconflict as [Hsame|Hfresh].
  - left. apply negb_false_iff, bool_decide_eq_true in Hsame. done.
  - right. simpl. intros Hin. apply existsb_name in Hin. congruence.
Qed.

Lemma delete_prompt_unique (self self' : app) (cat : category) (confirmed : bool)
    (st st' : state) :
  (∀ c, names_unique self c) →
  delete_prompt self cat confirmed st = (inr self', st') →
  ∀ c, names_unique self' c.
Proof.
  intros Hu. unfold delete_prompt.
  destruct (negb (selection_truthy _)); [by intros [= <- _]|].
  destruct (negb confirmed); [by intros [= <- _]|].
  destruct (_ <? _)%nat; intros [= <- _] c.
  - apply names_unique_refresh, names_unique_set; [|done].
    apply NoDup_names_filter, Hu.
  - apply names_unique_set; [|done]. apply NoDup_names_filter, Hu.
Qed.

(** X11: the three editing handlers keep the preset names of every
    category pairwise different.  When they are so before [add_prompt],
    [edit_prompt] or [delete_prompt] runs, with any entry texts, any
    selection and any answer to the confirmation, they are so in the
    application the handler leaves. *)
Theorem names_stay_unique (self self' : app) (cat : category) :
  (∀ c, names_unique self c) →
  (∃ name_entry val_entry st st',
      add_prompt self cat name_entry val_entry st = (inr self', st'))
  ∨ (∃ name_entry val_entry st st',
        edit_prompt self cat name_entry val_entry st = (inr self', st'))
  ∨ (∃ confirmed st st', delete_prompt self cat confirmed st = (inr self', st')) →
  ∀ c, names_unique self' c.
Proof.
  intros Hu [(ne & ve & st & st' & H)|[(ne & ve & st & st' & H)|(b & st & st' & H)]].
  - by eapply add_prompt_unique.
  - by eapply edit_prompt_unique.
  - by eapply delete_prompt_unique.
Qed.

Lemma names_stay_unique_witness :
  (∀ c, names_unique Samples.shelf c)
  ∧ ∃ self' st',
      edit_prompt Samples.shelf pose "d" "crouching" Samples.fresh = (inr self', st')
      ∧ ∀ c, names_unique self' c.
Proof.
  assert (∀ c, names_unique Samples.shelf c) as Hu.
  { intros c. unfold names_unique. destruct c; simpl; repeat constructor;
      rewrite ?elem_of_cons; try apply not_elem_of_nil;
      intros H; repeat (destruct H as [H|H]; [discriminate H|]);
      by apply elem_of_nil in H. }
  split; [exact Hu|]. eexists _, _. split; [vm_compute; reflexivity|].
  apply (names_stay_unique Samples.shelf _ pose Hu). right. left.
  exists "d", "crouching", Samples.fresh. eexists. vm_compute. reflexivity.
Defined.

End EditingProps.

(** ** The generated prompts *)

Module GeneratedProps.
Import Py DataManager MainApp Invariants PyStr PyStrFacts.



Lemma set_generated_prompts_id (self : app) :
  set_generated_prompts self (generated_prompts self) = self.
Proof. by destruct self. Qed.





(** X14: generating twice is generating once.  After
    [generate_prompt_string] has filed a prompt, running it again on
    the same selection leaves the application and the disk exactly as
    the first run left them: the entry under the key is overwritten by
    itself and no second entry appears. *)
Theorem generate_twice (self self1 : app) (st st1 : state) :
  final_key self ≠ "" →
  generate_prompt_string self st = (inr self1, st1) →
  final_key self1 = final_key self
  ∧ full_prompt self1 = full_prompt self
  ∧ ∃ st2, generate_prompt_string self1 st1 = (inr self1, st2) ∧ disk st2 = disk st1.
Proof.
  intros Hkey Hgen. apply nonempty_true in Hkey.
  unfold generate_prompt_string in Hgen. rewrite Hkey in Hgen. simpl in Hgen.
  injection Hgen as <- <-.
  split; [reflexivity|]. split; [reflexivity|].
  eexists. split.
  - unfold generate_prompt_string.
    change (final_key (set_generated_prompts self _)) with (final_key self).
    change (full_prompt (set_generated_prompts self _)) with (full_prompt self).
    rewrite Hkey. simpl. rewrite insert_insert_eq. reflexivity.
  - simpl. by rewrite insert_insert_eq.
Qed.

Lemma generate_twice_witness :
  ∃ self1 st1 st2,
    generate_prompt_string Samples.studio Samples.fresh = (inr self1, st1)
    ∧ generate_prompt_string self1 st1 = (inr self1, st2)
    ∧ disk st2 = disk st1.
Proof.
  assert (final_key Samples.studio ≠ "") as Hkey by (vm_compute; discriminate).
  destruct (generate_prompt_string Samples.studio Samples.fresh) as [[e|self1] st1] eqn:Hgen;
    [vm_compute in Hgen; discriminate Hgen|].
  destruct (generate_twice Samples.studio self1 Samples.fresh st1 Hkey Hgen)
    as (_ & _ & st2 & Hagain & Hdisk).
  by exists self1, st1, st2.
Defined.



End GeneratedProps.

(** ** The submitter: what is sent, and when *)

Module SubmitterExtra.
Import Py Comfyui SubmitterSpec PyStr PyStrFacts.

Lemma getattr_effects (obj : gmap string scalar) (attr : string) (st st' : state)
    (r : exn + scalar) :
  getattr obj attr st = (r, st') → st' = st.
Proof. unfold getattr. destruct (obj !! attr); by intros [= _ <-]. Qed.

Lemma str_replace_effects (s old : string) (new : scalar) (st st' : state)
    (r : exn + string) :
  str_replace s old new st = (r, st') → st' = st.
Proof. unfold str_replace. destruct new; by intros [= _ <-]. Qed.

Lemma seed_text_effects (w : world) (seed : scalar) (st st' : state) (r : exn + string) :
  seed_text w seed st = (r, st') →
  log st' = log st ∧ disk st' = disk st
  ∧ draws st' = (if is_random_seed seed then S (draws st) else draws st).
Proof.
  rewrite SubmitterProps.seed_text_returns.
  destruct (is_random_seed seed); by intros [= _ <-].
Qed.

Lemma read_text_effects (w : world) (path : string) (st st' : state) (r : exn + string) :
  read_text w path st = (r, st') → st' = st.
Proof. unfold read_text. destruct (templates w path); by intros [= _ <-]. Qed.

(** Building the text touches neither the log nor the disk; it draws at
    most one number. *)
Lemma workflow_text_effects (w : world) (s : gmap string scalar) (prompt : string)
    (st st' : state) (r : exn + string) :
  workflow_text w s prompt st = (r, st') →
  log st' = log st ∧ disk st' = disk st
  ∧ (draws st' = draws st ∨ draws st' = S (draws st)).
Proof.
  unfold workflow_text, read_template, substitute, bind, ret.
  repeat match goal with
    | |- context [getattr ?o ?a ?x] =>
        let H := fresh "Hget" in
        destruct (getattr o a x) as [[?|?] ?] eqn:H;
        apply getattr_effects in H; subst
    | |- context [str_replace ?a ?b ?c ?x] =>
        let H := fresh "Hrep" in
        destruct (str_replace a b c x) as [[?|?] ?] eqn:H;
        apply str_replace_effects in H; subst
    | |- context [read_text ?a ?b ?x] =>
        let H := fresh "Hread" in
        destruct (read_text a b x) as [[?|?] ?] eqn:H;
        apply read_text_effects in H; subst
    | |- context [seed_text ?a ?b ?x] =>
        let H := fresh "Hseed" in
        destruct (seed_text a b x) as [[?|?] ?] eqn:H;
        apply seed_text_effects in H; destruct H as (? & ? & ?)
    | |- (_, _) = (_, _) → _ => intros [= _ <-]
    end;
    (split_and!; [congruence | congruence |]);
    first [ by left
          | match goal with
            | H : draws _ = (if ?b then _ else _) |- _ => destruct b; auto
            end ].
Qed.

(** A run of [send_workflow] leaves the disk as it was. *)
Lemma send_workflow_disk (w : world) (BASE_URL : string)
    (s : gmap string scalar) (prompt : string) (st st' : state) (r : exn + ()) :
  send_workflow w BASE_URL s prompt st = (r, st') → disk st' = disk st.
Proof.
  intros Hrun.
  destruct (workflow_text w s prompt st) as [[e|text] st1] eqn:Htext;
    pose proof (workflow_text_effects _ _ _ _ _ _ Htext) as (_ & Hdisk & _).
  { unfold send_workflow in Hrun. rewrite (SubmitterProps.bind_raise_l _ _ _ _ _ Htext) in Hrun.
    by injection Hrun as <- <-. }
  destruct (json_loads w text) as [payload|] eqn:Hparse.
  - rewrite (SubmitterProps.send_workflow_posts _ _ _ _ _ _ _ _ Htext Hparse) in Hrun.
    cbv zeta in Hrun.
    destruct (http_post w (BASE_URL +:+ "prompt") (JObj (<["prompt" := payload]> ∅)));
      by injection Hrun as <- <-.
  - unfold send_workflow in Hrun. rewrite (SubmitterProps.bind_ret_l _ _ _ _ _ Htext) in Hrun.
    unfold loads in Hrun. rewrite Hparse in Hrun.
    unfold bind, raise in Hrun. by injection Hrun as <- <-.
Qed.

(** X16: [send_workflow] sends at most one request, and only a text
    that parsed.  Whatever the settings, the templates and the server
    are, a run leaves the disk as it was and extends the log in one of
    three ways: by nothing, when it raised before the request (a
    missing attribute, a missing template, a LoRA or checkpoint that is
    not a string, a text that is not JSON); by the one POST of the
    parsed text to [BASE_URL + "prompt"], when the request itself
    raised; by that POST followed by one printed line, when it
    returned.  In particular, when the substituted text is not JSON the
    run ends in a JSONDecodeError and nothing is sent. *)
Theorem send_workflow_sends_at_most_once (w : world) (BASE_URL : string)
    (s : gmap string scalar) (prompt : string) (st st' : state) (r : exn + ()) :
  send_workflow w BASE_URL s prompt st = (r, st') →
  disk st' = disk st
  ∧ ((log st' = log st ∧ ∃ e, r = inl e)
     ∨ ∃ text payload st1,
         workflow_text w s prompt st = (inr text, st1)
         ∧ json_loads w text = Some payload
         ∧ ((log st' = log st ++ [HttpPost (BASE_URL +:+ "prompt")
                                    (JObj (<["prompt" := payload]> ∅))]
             ∧ ∃ e, r = inl e)
            ∨ (∃ line, log st' = log st ++ [HttpPost (BASE_URL +:+ "prompt")
                                              (JObj (<["prompt" := payload]> ∅));
                                            Printed line]
                       ∧ r = inr ())))
  ∧ (∀ text st1, workflow_text w s prompt st = (inr text, st1) →
                 json_loads w text = None →
                 r = inl JSONDecodeError ∧ log st' = log st).
Proof.
  intros Hrun.
  destruct (workflow_text w s prompt st) as [[e|text] st1] eqn:Htext.
  { pose proof (workflow_text_effects _ _ _ _ _ _ Htext) as (Hlog & Hdisk & _).
    unfold send_workflow in Hrun. rewrite (SubmitterProps.bind_raise_l _ _ _ _ _ Htext) in Hrun.
    injection Hrun as <- <-. split_and!; [done | left; eauto | done]. }
  pose proof (workflow_text_effects _ _ _ _ _ _ Htext) as (Hlog & Hdisk & _).
  destruct (json_loads w text) as [payload|] eqn:Hparse.
  - rewrite (SubmitterProps.send_workflow_posts _ _ _ _ _ _ _ _ Htext Hparse) in Hrun.
    cbv zeta in Hrun.
    destruct (http_post w (BASE_URL +:+ "prompt") (JObj (<["prompt" := payload]> ∅)))
      as [e|resp]; injection Hrun as <- <-.
    + split_and!; [done | | intros ? ? [= <- <-]; congruence].
      right. exists text, payload, st1. split_and!; [done..|].
      left. simpl. rewrite Hlog. eauto.
    + split_and!; [done | | intros ? ? [= <- <-]; congruence].
      right. exists text, payload, st1. split_and!; [done..|].
      right. eexists. simpl. rewrite Hlog, <- List.app_assoc. eauto.
  - unfold send_workflow in Hrun. rewrite (SubmitterProps.bind_ret_l _ _ _ _ _ Htext) in Hrun.
    unfold loads in Hrun. rewrite Hparse in Hrun.
    unfold bind, raise in Hrun. injection Hrun as <- <-.
    split_and!; [done | left; eauto | done].
Qed.

Lemma send_workflow_sends_witness :
  send_workflow (Samples.answering [] 0 Samples.ok_response) Comfyui.BASE_URL
    Samples.seed_42 "a cat" Samples.fresh
  = (inl JSONDecodeError, Samples.fresh).
Proof.
  destruct (send_workflow (Samples.answering [] 0 Samples.ok_response) Comfyui.BASE_URL
              Samples.seed_42 "a cat" Samples.fresh) as [r st'] eqn:Hrun.
  destruct (send_workflow_sends_at_most_once _ _ _ _ _ _ _ Hrun) as (_ & _ & Hjson).
  destruct (Hjson (Samples.base_text Samples.default_checkpoint "a cat" 42) Samples.fresh)
    as [-> _]; [vm_compute; reflexivity | reflexivity |].
  vm_compute in Hrun. injection Hrun as <-. reflexivity.
Defined.

(** X17: a template without a percent sign is submitted as it is.  On
    settings that have every attribute (the checkpoint and the LoRA
    being strings), whatever their values and whatever the prompt, the
    text built from such a template is the template itself. *)
Theorem template_without_placeholders (w : world) (s : gmap string scalar)
    (prompt template : string) (st : state) (checkpoint lora : string)
    (latent_width latent_height batch_size seed steps cfg : scalar) :
  templates w (template_path (SStr lora)) = Some template →
  count_char "%" template = 0%nat →
  s !! "checkpoint" = Some (SStr checkpoint) →
  s !! "lora" = Some (SStr lora) →
  s !! "latent_width" = Some latent_width →
  s !! "latent_height" = Some latent_height →
  s !! "batch_size" = Some batch_size →
  s !! "seed" = Some seed →
  s !! "steps" = Some steps →
  s !! "cfg" = Some cfg →
  ∃ st', workflow_text w s prompt st = (inr template, st').
Proof.
  intros Htpl Hfree Hck Hlo Hwi Hhe Hba Hse Hst Hcf.
  destruct (SubmitterProps.substitute_chain w s prompt template st _ _ _ _ _ _ _ _
              Hck Hlo Hwi Hhe Hba Hse Hst Hcf) as (seed_str & st' & _ & Hsub).
  exists st'. unfold workflow_text.
  rewrite (SubmitterProps.bind_ret_l _ _ template st st).
  - rewrite Hsub. unfold substituted_from_seed, substituted_before_seed.
    by rewrite !(ReplaceFacts.replace_absent _ _ template "%" _ eq_refl Hfree).
  - unfold read_template.
    rewrite (SubmitterProps.bind_ret_l _ _ _ _ _ (SubmitterProps.getattr_some _ _ _ _ Hlo)).
    unfold read_text. by rewrite Htpl.
Qed.

Lemma template_without_placeholders_witness :
  ∃ st',
    workflow_text
      {| templates := λ _, Some "{}"; entropy := λ _, 0%N; json_loads := λ _, None;
         http_get := λ _, inl (RequestException "ConnectionError");
         http_post := λ _ _, inl (RequestException "ConnectionError") |}
      Samples.with_lora "a %SEED% cat" Samples.fresh
    = (inr "{}", st').
Proof.
  apply (template_without_placeholders _ Samples.with_lora "a %SEED% cat" "{}" Samples.fresh
           Samples.default_checkpoint "detail.safetensors"
           (SInt 1216) (SInt 832) (SInt 1) (SInt 42) (SInt 20) (SFloat "3.0"));
    reflexivity.
Defined.

(** X18: [api_system_stats] sends exactly one GET, to
    [URL + "api/system_stats"], prints at most one line after it, leaves
    the disk as it was, and never lets a [requests.RequestException]
    out: such an exception, from the request or from the parsing of the
    body, is turned into the answer None. *)
Theorem api_system_stats_contains_request_errors (w : world) (URL : string)
    (st st' : state) (r : exn + json) :
  api_system_stats w URL st = (r, st') →
  (∀ e, r = inl e → is_RequestException e = false)
  ∧ (log st' = log st ++ [HttpGet (URL +:+ "api/system_stats")]
     ∨ ∃ line, log st' = log st ++ [HttpGet (URL +:+ "api/system_stats"); Printed line])
  ∧ disk st' = disk st
  ∧ draws st' = draws st.
Proof.
  rewrite SubmitterProps.api_system_stats_cases. cbv zeta.
  destruct (http_get w (URL +:+ "api/system_stats")) as [e|resp].
  - destruct (is_RequestException e) eqn:He; intros [= <- <-];
      (split_and!; [intros ? [= <-]; done || congruence | by left | done | done]).
  - case_bool_decide.
    + destruct (json_result resp) as [e|v].
      * destruct (is_RequestException e) eqn:He; intros [= <- <-];
          (split_and!; [intros ? [= <-]; done || congruence | by left | done | done]).
      * intros [= <- <-]. split_and!; [by intros ? [=] | by left | done | done].
    + intros [= <- <-]. split_and!; [by intros ? [=] | | done | done].
      right. eexists. simpl. by rewrite <- List.app_assoc.
Qed.

Lemma api_system_stats_witness :
  api_system_stats (Samples.unreachable [] 0) Comfyui.BASE_URL Samples.fresh
  = (inr JNull, logged (HttpGet (Comfyui.BASE_URL +:+ "api/system_stats")) Samples.fresh)
  ∧ ∀ e, @inr exn json JNull = inl e → is_RequestException e = false.
Proof.
  split; [reflexivity|].
  exact (proj1 (api_system_stats_contains_request_errors (Samples.unreachable [] 0)
                  Comfyui.BASE_URL Samples.fresh _ (inr JNull) eq_refl)).
Defined.

(** The loop of the send button, when every submission is answered. *)
Lemma send_each_counts (w : world) (self : MainApp.app) (keys : list string)
    (count : nat) (st : state) :
  (∀ key prompt st0, key ∈ keys →
     MainApp.generated_prompts self !! key = Some prompt → prompt ≠ "" →
     ∃ st1, send_workflow w (MainApp.comfyui_url_var self) (MainApp.comfyui_settings self)
              prompt st0 = (inr (), st1)) →
  ∃ st',
    MainApp.send_each w self keys count st
    = (inr (count + length (List.filter
                (λ key, nonempty (default "" (MainApp.generated_prompts self !! key))) keys))%nat,
       st')
    ∧ disk st' = disk st.
Proof.
  revert count st. induction keys as [|key keys IH]; intros count st Hanswered.
  - exists st. simpl. split; [|done]. unfold ret. do 2 f_equal. lia.
  - cbn [MainApp.send_each List.filter].
    destruct (nonempty (default "" (MainApp.generated_prompts self !! key))) eqn:Hne.
    + destruct (MainApp.generated_prompts self !! key) as [prompt|] eqn:Hkey; [|done].
      cbn [default] in *.
      destruct (Hanswered key prompt st) as [st1 Hsend];
        [by left | done | by apply nonempty_true |].
      destruct (IH (S count) st1) as (st' & Hrest & Hdisk).
      { intros k p s0 Hk. apply Hanswered. by right. }
      exists st'. rewrite (SubmitterProps.bind_ret_l _ _ _ _ _ Hsend), Hrest.
      split.
      * do 2 f_equal. simpl. lia.
      * rewrite Hdisk. by eapply send_workflow_disk.
    + apply IH. intros k p s0 Hk. apply Hanswered. by right.
Qed.

(** X19: the send button counts every answered submission as sent.
    When the connection status is not a failure, at least one row is
    selected and every submission of a selected, non-blank prompt
    returns (whatever status code the server answers with), the handler
    ends by announcing as sent the number of selected keys that have a
    non-blank prompt: keys without a prompt are passed over, and a
    prompt the server refused is counted like one it accepted.  The
    application and the disk are as before. *)
Theorem send_selected_prompt_counts (w : world) (self : MainApp.app) (keys : list string)
    (st : state) :
  MainApp.comfyui_status_var self ≠ MainApp.EmptyUrl →
  MainApp.comfyui_status_var self ≠ MainApp.Unreachable →
  keys ≠ [] →
  (∀ key prompt st0, key ∈ keys →
     MainApp.generated_prompts self !! key = Some prompt → prompt ≠ "" →
     ∃ st1, send_workflow w (MainApp.comfyui_url_var self) (MainApp.comfyui_settings self)
              prompt st0 = (inr (), st1)) →
  ∃ st' before,
    MainApp.send_selected_prompt w self keys st = (inr self, st')
    ∧ log st'
      = before ++ [AutoClose ("sent " +:+ pretty (N.of_nat (length (List.filter
            (λ key, nonempty (default "" (MainApp.generated_prompts self !! key))) keys))))]
    ∧ disk st' = disk st.
Proof.
  intros Hs1 Hs2 Hkeys Hanswered.
  destruct (send_each_counts w self keys 0 st Hanswered) as (st1 & Hloop & Hdisk).
  unfold MainApp.send_selected_prompt.
  destruct keys as [|key keys]; [done|].
  destruct (MainApp.comfyui_status_var self); try done;
    rewrite (SubmitterProps.bind_ret_l _ _ _ _ _ Hloop);
    eexists _, (log st1); (split; [reflexivity|]); by split.
Qed.

Lemma send_selected_prompt_counts_witness :
  ∃ st' before,
    MainApp.send_selected_prompt
      (Samples.answering Samples.sample_parses 0 Samples.error_response)
      Samples.sender ["cat"; "blank"; "absent"] Samples.fresh
    = (inr Samples.sender, st')
    ∧ log st' = before ++ [AutoClose "sent 1"].
Proof.
  destruct (send_selected_prompt_counts
              (Samples.answering Samples.sample_parses 0 Samples.error_response)
              Samples.sender ["cat"; "blank"; "absent"] Samples.fresh)
    as (st' & before & Hrun & Hlog & _); try discriminate.
  - intros key prompt st0 Hkey Hprompt Hne.
    assert (prompt = "a cat") as ->.
    { apply list_elem_of_In in Hkey. simpl in Hkey.
      destruct Hkey as [<-|[<-|[<-|[]]]]; vm_compute in Hprompt; congruence. }
    eexists. vm_compute. reflexivity.
  - exists st', before. split; [exact Hrun | exact Hlog].
Defined.

(** X20: a failed connection check blocks the send button.  After
    [check_comfyui_connection] the status is Connected exactly when the
    URL, without its surrounding whitespace, is not empty and the probe
    answered true; an empty URL is refused without any request.  With
    any other outcome, [send_selected_prompt] sends nothing, whatever
    is selected: it only shows its error box. *)
Theorem failed_check_blocks_sending (w : world) (self self1 : MainApp.app)
    (st st1 : state) :
  MainApp.check_comfyui_connection w self st = (inr self1, st1) →
  let url := strip (MainApp.comfyui_url_var self) MainApp.whitespace in
  (MainApp.comfyui_status_var self1 = MainApp.Connected
   ↔ url ≠ "" ∧ probe w url st = (inr true, st1))
  ∧ (url = "" → st1 = st ∧ MainApp.comfyui_status_var self1 = MainApp.EmptyUrl)
  ∧ MainApp.generated_prompts self1 = MainApp.generated_prompts self
  ∧ (MainApp.comfyui_status_var self1 ≠ MainApp.Connected →
     ∀ w' keys,
       MainApp.send_selected_prompt w' self1 keys st1
       = (inr self1, logged (ShowError "connect to ComfyUI first") st1)).
Proof.
  intros Hcheck url. unfold MainApp.check_comfyui_connection in Hcheck. fold url in Hcheck.
  unfold probe, bind in *.
  destruct (nonempty url) eqn:Hurl; simpl in Hcheck.
  - apply nonempty_true in Hurl.
    destruct (api_system_stats w url st) as [[e|stats] st0]; [done|].
    destruct (truthy stats) eqn:Ht; injection Hcheck as <- <-; unfold ret.
    + split_and!; [done | done | done | done].
    + split_and!; [|done | done |].
      * split; [done | by intros [_ [=]]].
      * intros _ w' keys. reflexivity.
  - apply nonempty_false in Hurl. injection Hcheck as <- <-.
    split_and!; [|done | done |].
    + split; [done | by intros [? _]].
    + intros _ w' keys. reflexivity.
Qed.

Lemma failed_check_blocks_sending_witness :
  ∃ self1 st1,
    MainApp.check_comfyui_connection (Samples.unreachable [] 0) Samples.sender Samples.fresh
    = (inr self1, st1)
    ∧ MainApp.send_selected_prompt
        (Samples.answering Samples.sample_parses 0 Samples.ok_response)
        self1 ["cat"] st1
      = (inr self1, logged (ShowError "connect to ComfyUI first") st1).
Proof.
  destruct (MainApp.check_comfyui_connection (Samples.unreachable [] 0) Samples.sender
              Samples.fresh) as [[e|self1] st1] eqn:Hcheck;
    [vm_compute in Hcheck; discriminate Hcheck|].
  exists self1, st1. split; [reflexivity|].
  apply (failed_check_blocks_sending _ _ _ _ _ Hcheck).
  vm_compute in Hcheck. injection Hcheck as <- _. discriminate.
Defined.

End SubmitterExtra.

(** ** The composed prompt text *)

Module ComposerExtra.
Import Py MainApp PyStr PyStrFacts.

Lemma rstrip_head (s chars : string) :
  rstrip s chars = ""
  ∨ ∃ c r r', s = String c r ∧ rstrip s chars = String c r'.
Proof.
  destruct s as [|c s]; [by left|]. simpl.
  destruct (rstrip s chars) as [|a r'].
  - destruct (contains_char chars c); [by left | right; eauto].
  - right. eauto.
Qed.

Lemma lstrip_head (s chars : string) :
  lstrip s chars = ""
  ∨ ∃ c r, lstrip s chars = String c r ∧ contains_char chars c = false.
Proof.
  induction s as [|c s IH]; [by left|]. simpl.
  destruct (contains_char chars c) eqn:Hc; [done|]. right. eauto.
Qed.

Lemma rstrip_tail (s chars : string) (x : ascii) :
  contains_char chars x = true → endswith (rstrip s chars) (String x "") = false.
Proof.
  intros Hx. induction s as [|c s IH]; [done|]. simpl.
  destruct (rstrip s chars) as [|a r'] eqn:Hr.
  - destruct (contains_char chars c) eqn:Hc; [done|]. simpl.
    rewrite bool_decide_eq_false_2; [done|]. intros [= ->]. congruence.
  - change (endswith (String c (String a r')) (String x ""))
      with (if bool_decide (String c (String a r') = String x "") then true
            else endswith (String a r') (String x "")).
    by rewrite bool_decide_eq_false_2.
Qed.

(** A stripped text neither starts nor ends with a stripped
    character. *)
Lemma strip_ends (s chars : string) (x : ascii) :
  contains_char chars x = true →
  startswith (strip s chars) (String x "") = false
  ∧ endswith (strip s chars) (String x "") = false.
Proof.
  intros Hx. split; [|by apply rstrip_tail].
  unfold strip. destruct (lstrip_head s chars) as [->|(c & r & -> & Hc)]; [done|].
  destruct (rstrip_head (String c r) chars) as [->|(c' & r0 & r' & [= <- <-] & ->)]; [done|].
  simpl. destruct (Ascii.eqb x c) eqn:Hxc; [|done].
  apply Ascii.eqb_eq in Hxc as ->. congruence.
Qed.

Lemma startswith_app_nonempty (p t : string) (x : ascii) :
  p ≠ "" → startswith (p +:+ t) (String x "") = startswith p (String x "").
Proof.
  destruct p as [|c p]; [done|]. intros _. rewrite app_cons. simpl.
  destruct (Ascii.eqb x c); [|done]. by destruct p, t.
Qed.

Lemma join_ends (sep : string) (x : ascii) (parts : list string) :
  Forall (λ p, p ≠ "" ∧ startswith p (String x "") = false
               ∧ endswith p (String x "") = false) parts →
  startswith (join sep parts) (String x "") = false
  ∧ endswith (join sep parts) (String x "") = false.
Proof.
  induction 1 as [|p rest (Hp & Hs & He) Hrest IH]; [done|].
  destruct rest as [|q rest]; [done|].
  rewrite join_cons by done. split.
  - by rewrite startswith_app_nonempty.
  - assert (join sep (q :: rest) ≠ "") as Hne.
    { apply join_nonempty; [done|]. eapply Forall_impl; [exact Hrest|]. by intros ? []. }
    rewrite <- app_assoc, endswith_app; [apply IH | | done].
    destruct (join sep (q :: rest)); [done|]. simpl. lia.
Qed.

Lemma append_value_ends (found : option string) (p : string) :
  In p (append_value found) → startswith p "," = false ∧ endswith p "," = false.
Proof.
  destruct found as [v|]; simpl; [|done].
  destruct (nonempty v); [|done].
  intros [<-|[]]. by apply (strip_ends v "," ",").
Qed.

Lemma prompt_parts_ends (self : app) :
  Forall (λ p, startswith p "," = false ∧ endswith p "," = false) (prompt_parts self).
Proof.
  unfold prompt_parts. apply Forall_forall. intros p Hin.
  apply list_elem_of_In, in_flat_map in Hin as (cat & _ & Hin).
  unfold value_parts_of in Hin. case_decide.
  - apply in_flat_map in Hin as (i & _ & Hin). by eapply append_value_ends.
  - destruct (nonempty (prompt_vars self cat)); [|done]. by eapply append_value_ends.
Qed.

(** X21: the composed prompt never starts or ends with a comma, and
    none of its joined parts is empty.  Whatever is selected and
    whatever the presets hold (values with commas around them, values
    made of commas only, names without a preset), the prompt text is
    the join by a comma and a space of non-empty parts that neither
    start nor end with a comma. *)
Theorem full_prompt_has_no_outer_comma (self : app) :
  startswith (full_prompt self) "," = false
  ∧ endswith (full_prompt self) "," = false
  ∧ full_prompt self = join ", " (filter_none (prompt_parts self))
  ∧ Forall (λ p, p ≠ "" ∧ startswith p "," = false ∧ endswith p "," = false)
      (filter_none (prompt_parts self)).
Proof.
  assert (Forall (λ p, p ≠ "" ∧ startswith p "," = false ∧ endswith p "," = false)
            (filter_none (prompt_parts self))) as Hparts.
  { apply Forall_forall. intros p Hin.
    apply list_elem_of_In, filter_In in Hin as [Hin Hne].
    split; [by apply nonempty_true|].
    pose proof (prompt_parts_ends self) as Hall. rewrite Forall_forall in Hall.
    by apply Hall, list_elem_of_In. }
  destruct (join_ends ", " "," _ Hparts) as [Hs He].
  by split_and!.
Qed.

End ComposerExtra.

(** ** The methods on sample inputs *)

Module Examples.
Import Py MainApp.

Example replace_all_occurrences : PyStr.replace "a%X%b%X%" "%X%" "12" = "a12b12".
Proof. reflexivity. Qed.

Example replace_is_single_pass : PyStr.replace "%LO%LORA%RA%" "%LORA%" "" = "%LORA%".
Proof. reflexivity. Qed.

Example replace_empty_pattern : PyStr.replace "ab" "" "-" = "-a-b-".
Proof. reflexivity. Qed.

Example strip_commas : PyStr.strip ",,a,b,," "," = "a,b".
Proof. reflexivity. Qed.

Example join_three : PyStr.join "-" ["a"; "b"; "c"] = "a-b-c".
Proof. reflexivity. Qed.

Example slice_inner : PyStr.slice_1_m1 "[abc]" = "abc".
Proof. reflexivity. Qed.

Example escape_newline : escape (String "010" "x") = String PyStr.backslash "nx".
Proof. reflexivity. Qed.

Example escape_quote :
  escape (String PyStr.dquote "") = String PyStr.backslash (String PyStr.dquote "").
Proof. reflexivity. Qed.

Example escape_control : escape (String "001" "") = String PyStr.backslash "u0001".
Proof. reflexivity. Qed.

Example str_negative : str (SInt (-1)) = "-1".
Proof. reflexivity. Qed.

Example composed_two_selected :
  full_prompt Samples.two_selected = "masterpiece, anime style"
  ∧ final_key Samples.two_selected = "anime-q1".
Proof. split; reflexivity. Qed.

Example composed_studio :
  full_prompt Samples.studio = "masterpiece, anime style, x, y"
  ∧ final_key Samples.studio = "gone-anime-e1_e2-q1".
Proof. split; reflexivity. Qed.

End Examples.
